(** * The GameSpy decode gateway of halo-query

    A shallow embedding of [src/gamespy-crypto/binding.cpp]: the native
    function [Decryptx] that Node.js reaches as [decryptx(key, validate, data)],
    and the little slice of Node-API and of C memory it stands on.

    The decode routine [enctypex_wrapper] is only declared in
    [enctypex_decoder.h]; it is a parameter of the development.  The parts of
    Node-API whose behaviour depends on how the addon is built (what a failed
    conversion does after it has raised its exception) are a parameter too,
    and so are the two limits of the machine the call runs on: the room left
    on the C stack and the largest Buffer that Node.js creates. *)

From stdpp Require Import gmap strings list.
From Stdlib Require Import ZArith.
From Stdlib.Strings Require Import Byte.

Local Open Scope Z_scope.

(** ** Bytes, addresses and memory *)

Abbreviation bytes := (list byte).
Abbreviation addr := positive.

(** One address space for the JavaScript heap and the C stack: a block per
    allocation, named by its address. *)
Abbreviation memory := (gmap addr bytes).

#[global] Instance byte_eq_dec : EqDecision byte := Byte.byte_eq_dec.

Definition octet (n : N) : byte := default x00 (Byte.of_N (n mod 256)).

(** Writing [new] through a pointer to an array that holds [old]: the array
    keeps its size. *)
Definition inplace (old new : bytes) : bytes :=
  take (length old) (new ++ drop (length new) old).

(** ** C integer conversions *)

Definition INT_MAX : Z := 2 ^ 31 - 1.

(** [size_t] or any integer to [int] (32 bits, two's complement). *)
Definition to_int (z : Z) : Z := (z + 2 ^ 31) mod 2 ^ 32 - 2 ^ 31.

(** [int] to [size_t] (64 bits). *)
Definition to_size_t (z : Z) : Z := z mod 2 ^ 64.

(** ** JavaScript values *)

Inductive value :=
| JsUndefined
| JsNull
| JsNumber (z : Z)
| JsString (units : list N)      (* UTF-16 code units *)
| JsBuffer (a : addr).           (* a Buffer object over the block at [a] *)

(** ** [napi_get_value_string_utf8]: UTF-16 to UTF-8 *)

Definition utf8_scalar (c : N) : bytes :=
  (if c <? 0x80 then [octet c]
   else if c <? 0x800 then
     [octet (0xC0 + c / 0x40); octet (0x80 + c mod 0x40)]
   else if c <? 0x10000 then
     [octet (0xE0 + c / 0x1000); octet (0x80 + (c / 0x40) mod 0x40);
      octet (0x80 + c mod 0x40)]
   else
     [octet (0xF0 + c / 0x40000); octet (0x80 + (c / 0x1000) mod 0x40);
      octet (0x80 + (c / 0x40) mod 0x40); octet (0x80 + c mod 0x40)])%N.

Definition is_lead (u : N) : bool := ((0xD800 <=? u) && (u <? 0xDC00))%N.
Definition is_trail (u : N) : bool := ((0xDC00 <=? u) && (u <? 0xE000))%N.

(** An unpaired surrogate is written as U+FFFD. *)
Definition replacement : bytes := utf8_scalar 0xFFFD%N.

Definition pair_scalar (hi lo : N) : N :=
  (0x10000 + (hi - 0xD800) * 0x400 + (lo - 0xDC00))%N.

Fixpoint utf8 (units : list N) : bytes :=
  match units with
  | [] => []
  | u :: rest =>
      if is_lead u then
        match rest with
        | lo :: rest' =>
            if is_trail lo then utf8_scalar (pair_scalar u lo) ++ utf8 rest'
            else replacement ++ utf8 rest
        | [] => replacement
        end
      else if is_trail u then replacement ++ utf8 rest
      else utf8_scalar u ++ utf8 rest
  end.

(** ** What the call leaves behind *)

Inductive event :=
| Thrown (msg : string)                           (* a JavaScript exception became pending *)
| Alloca (a : addr) (n : nat)                     (* a working array of [n] bytes was declared *)
| Memcpy (dst : addr) (src : bytes) (n : nat)     (* [n] bytes of [src] were copied to [dst] *)
| Engine (key validate data : bytes) (size : Z)   (* [enctypex_wrapper] was entered on these contents *)
| BufferCopy (src : addr) (n : Z).                (* [Napi::Buffer::Copy] was asked for [n] bytes *)

Record state := State {
  mem : memory;
  frame : list addr;            (* the arrays of the running C++ frame *)
  pending : option string;      (* the pending JavaScript exception *)
  trace : list event;           (* oldest first *)
}.

Definition record (e : event) (s : state) : state :=
  State (mem s) (frame s) (pending s) (trace s ++ [e]).

Definition poke (a : addr) (b : bytes) (s : state) : state :=
  State (<[a := b]> (mem s)) (frame s) (pending s) (trace s).

Definition block (s : state) (a : addr) : bytes := default [] (mem s !! a).

(** ** The monad of the C++ body: state, and the ways control can leave it *)

Inductive exit :=
| Unwound          (* a C++ [Napi::Error] propagates out of the callback *)
| Terminated       (* Node-API ends the process *)
| StackOverflow    (* an array did not fit on the stack: the process is killed *)
| OutOfBounds.     (* memory past the end of an array is read *)

Inductive step (A : Type) :=
| Next (a : A) (s : state)
| Halt (e : exit) (s : state).
Arguments Next {A} a s.
Arguments Halt {A} e s.

Definition M (A : Type) : Type := state → step A.

#[global] Instance M_ret : MRet M := λ A a s, Next a s.
#[global] Instance M_bind : MBind M := λ A B k c s,
  match c s with
  | Next a s' => k a s'
  | Halt e s' => Halt e s'
  end.

(** ** How the Node-API build reacts to a call it cannot serve

    After raising its JavaScript exception such a call either returns a
    default value to the C++ caller, throws a C++ exception, or terminates the
    process; which one depends on the addon's build flags and on the Node
    version, neither of which is part of the sources. *)

Inductive misuse :=
| ThrowWhilePending     (* ThrowAsJavaScriptException with an exception pending *)
| NotAString            (* Utf8Value of a value that is no string *)
| NotABuffer            (* As<Napi::Buffer<char>> of a value that is no buffer *)
| NoBufferInfo          (* Length or Data of such a handle *)
| CreateWhilePending    (* Buffer::Copy with an exception pending *)
| TooLarge.             (* Buffer::Copy of more bytes than a Buffer can have *)

Inductive reaction := Proceed | Unwind | Terminate.

(** What JavaScript sees of a call.  A call that reads past the end of one
    of its arrays has no defined behaviour in C++; it is given an outcome of
    its own, of which nothing more is said. *)
Inductive completion :=
| Returns (v : value)
| Throws (msg : string)
| Dies
| Undefined.

(** ** The machine

    [stack_room] is the number of bytes of stack that the callback may still
    take for its arrays when it is entered (the stack limit of the process
    less what Node.js has in use), [kMaxLength] the largest length of a
    Buffer ([buffer.constants.MAX_LENGTH]). *)
Record platform := Platform {
  stack_room : Z;
  kMaxLength : Z;
}.

Record call_result := CallResult {
  outcome : completion;
  heap : memory;          (* memory once the C++ frame is gone *)
  log : list event;
}.

(** [int enctypex_wrapper(unsigned char *key, unsigned char *validate,
    unsigned char *data, int size)]: what it writes through its three
    pointers, and what it returns. *)
Record engine_out := EngineOut {
  out_key : bytes;
  out_validate : bytes;
  out_data : bytes;
  ret : Z;
}.

Section Gateway.

Variable enctypex_wrapper : bytes → bytes → bytes → Z → engine_out.
Variable react : misuse → reaction.
Variable host : platform.

(** *** Node-API *)

Definition failed (k : misuse) (generic : string) : M unit := λ s,
  let s' := match pending s with
            | Some _ => s
            | None => record (Thrown generic)
                        (State (mem s) (frame s) (Some generic) (trace s))
            end in
  match react k with
  | Proceed => Next () s'
  | Unwind => Halt Unwound s'
  | Terminate => Halt Terminated s'
  end.

(** [Napi::TypeError::New(env, msg).ThrowAsJavaScriptException()]: the
    exception becomes pending and the call returns to its caller. *)
Definition ThrowAsJavaScriptException (msg : string) : M unit := λ s,
  match pending s with
  | None => Next () (record (Thrown msg)
                       (State (mem s) (frame s) (Some msg) (trace s)))
  | Some _ => failed ThrowWhilePending msg s
  end.

(** A call that Node.js itself refuses with an error of its own: the wrapper
    hands that error on, by returning or by a C++ exception; it does not end
    the process. *)
Definition refused (k : misuse) (code : string) : M unit := λ s,
  let s' := match pending s with
            | Some _ => s
            | None => record (Thrown code)
                        (State (mem s) (frame s) (Some code) (trace s))
            end in
  match react k with
  | Proceed => Next () s'
  | _ => Halt Unwound s'
  end.

Definition Length (info : list value) : nat := length info.

(** [info[i]]: an argument that was not passed reads as [undefined]. *)
Definition arg (info : list value) (i : nat) : value :=
  default JsUndefined (info !! i).

Definition IsString (v : value) : bool :=
  match v with JsString _ => true | _ => false end.

Definition IsBuffer (v : value) : bool :=
  match v with JsBuffer _ => true | _ => false end.

Definition Utf8Value (v : value) : M bytes :=
  match v with
  | JsString units => mret (utf8 units)
  | _ => failed NotAString "A string was expected";; mret []
  end.

Definition As_Buffer (v : value) : M value :=
  match v with
  | JsBuffer _ => mret v
  | _ => failed NotABuffer "Invalid argument";; mret v
  end.

Definition Buffer_Length (v : value) : M nat :=
  match v with
  | JsBuffer a => λ s, Next (length (block s a)) s
  | _ => failed NoBufferInfo "Invalid argument";; mret 0%nat
  end.

Definition Buffer_Data (v : value) : M bytes :=
  match v with
  | JsBuffer a => λ s, Next (block s a) s
  | _ => failed NoBufferInfo "Invalid argument";; mret []
  end.

(** [Napi::Buffer<char>::Copy(env, data, length)]: a new Buffer holding the
    [length] bytes found at [data].  Node.js refuses a [length] above
    [kMaxLength] with the error [ERR_BUFFER_TOO_LARGE] and copies nothing;
    below that it copies [length] bytes, whatever the array at [data] holds:
    past the end of the array the read leaves the array.  (A request within
    the array is within [kMaxLength] too: the array has the length of a
    Buffer that exists.) *)
Definition Buffer_Copy (src : addr) (n : Z) : M value := λ s,
  let s1 := record (BufferCopy src n) s in
  match pending s with
  | Some _ => (failed CreateWhilePending "An exception is pending";;
                   mret JsUndefined) s1
  | None =>
      if n <=? Z.of_nat (length (block s src)) then
        let a := fresh (dom (mem s)) in
        Next (JsBuffer a) (poke a (take (Z.to_nat n) (block s src)) s1)
      else if kMaxLength host <? n then
        (refused TooLarge "ERR_BUFFER_TOO_LARGE";; mret JsUndefined) s1
      else Halt OutOfBounds s1
  end.

(** *** C *)

(** The bytes that the arrays of the frame take on the stack. *)
Definition footprint (s : state) : nat :=
  foldr (λ a k, length (block s a) + k)%nat 0%nat (frame s).

(** [unsigned char name[n];] with [n] known at run time only: the array is
    carved out of the stack.  Nothing checks [n], and there is no failure
    value: when the stack has no room for the array the process is killed.
    An array is charged the [n] bytes it is declared with; what a compiler
    adds to align it is left out. *)
Definition alloca (n : nat) : M addr := λ s,
  if Z.of_nat (footprint s + n) <=? stack_room host then
    let a := fresh (dom (mem s)) in
    Next a (record (Alloca a n)
              (State (<[a := replicate n x00]> (mem s)) (a :: frame s)
                 (pending s) (trace s)))
  else Halt StackOverflow s.

Definition memcpy (dst : addr) (src : bytes) (n : nat) : M unit := λ s,
  Next () (record (Memcpy dst src n)
             (poke dst (inplace (block s dst) (take n src)) s)).

Definition call_enctypex_wrapper (key validate data : addr) (size : Z)
  : M Z := λ s,
  let k := block s key in
  let v := block s validate in
  let d := block s data in
  let o := enctypex_wrapper k v d size in
  Next (ret o)
    (poke data (inplace d (out_data o))
       (poke validate (inplace v (out_validate o))
          (poke key (inplace k (out_key o))
             (record (Engine k v d size) s)))).

(** *** binding.cpp *)

Definition error (msg : string) : M unit :=
  ThrowAsJavaScriptException msg.

Definition when (b : bool) (c : M unit) : M unit :=
  if b then c else mret ().

Definition Decryptx (info : list value) : M value :=
  when (Length info <? 3)%nat (error "Expected 3 arguments");;
  when (negb (IsString (arg info 0))) (error "Expected key to be a string");;
  when (negb (IsString (arg info 1)))
    (error "Expected validate to be a string");;
  when (negb (IsBuffer (arg info 2))) (error "Expected data to be a Buffer");;
  key ← Utf8Value (arg info 0);
  validate ← Utf8Value (arg info 1);
  data ← As_Buffer (arg info 2);
  mutable_key ← alloca (length key);
  mutable_validate ← alloca (length validate);
  data_length ← Buffer_Length data;
  mutable_data ← alloca data_length;
  memcpy mutable_key key (length key);;
  memcpy mutable_validate validate (length validate);;
  data_data ← Buffer_Data data;
  data_length ← Buffer_Length data;
  memcpy mutable_data data_data data_length;;
  data_length ← Buffer_Length data;
  end_size ← call_enctypex_wrapper mutable_key mutable_validate mutable_data
               (to_int (Z.of_nat data_length));
  if end_size =? -1 then mret JsNull
  else Buffer_Copy mutable_data (to_size_t end_size).

(** *** The call as JavaScript sees it

    [exports.decryptx]: the callback starts with no exception pending and
    an empty C++ frame; when it is left, its arrays are gone, and a pending
    exception takes the place of the returned value.  A process that is
    ended or killed is seen to die. *)

Definition enter (m : memory) : state := State m [] None [].

Definition leave (s : state) : memory := foldr delete (mem s) (frame s).

Definition decryptx (m : memory) (info : list value) : call_result :=
  match Decryptx info (enter m) with
  | Next v s =>
      CallResult
        (match pending s with Some msg => Throws msg | None => Returns v end)
        (leave s) (trace s)
  | Halt Unwound s =>
      CallResult (Throws (default EmptyString (pending s))) (leave s) (trace s)
  | Halt Terminated s | Halt StackOverflow s =>
      CallResult Dies (leave s) (trace s)
  | Halt OutOfBounds s => CallResult Undefined (leave s) (trace s)
  end.

End Gateway.

Arguments decryptx : simpl never.

(** ** What JavaScript can read off a completed call *)

Inductive observation :=
| Absent                      (* [null] *)
| Decoded (b : bytes)         (* a Buffer, by its bytes *)
| Another (v : value)         (* any other value *)
| Failure (msg : string)      (* a thrown exception *)
| Crash                       (* the end of the process *)
| Unknown.                    (* a run without defined behaviour *)

Definition observe (res : call_result) : observation :=
  match outcome res with
  | Returns JsNull => Absent
  | Returns (JsBuffer a) => Decoded (default [] (heap res !! a))
  | Returns v => Another v
  | Throws msg => Failure msg
  | Dies => Crash
  | Undefined => Unknown
  end.

(** ** The decoder's contract

    Modelled from the spec: the decoder behind [enctypex_wrapper] is not part
    of the sources at hand; its result is "the integer number of valid
    decoded bytes now occupying the front of buffer, satisfying
    0 ≤ result ≤ length", or [-1] when the buffer cannot be decoded. *)
Definition within_contract (result size : Z) : Prop :=
  result = -1 ∨ 0 ≤ result ≤ size.

(** ** Sample engines, runtimes and calls, to run the gateway on *)

(** Leaves the three buffers alone and answers [r]. *)
Definition answering (r : Z) : bytes → bytes → bytes → Z → engine_out :=
  λ key validate data _, EngineOut key validate data r.

(** Strips the first byte of [data] when it is the first byte of [key]:
    the rest moves to the front and its length is returned. *)
Definition unwrapping : bytes → bytes → bytes → Z → engine_out :=
  λ key validate data size,
    match key, data with
    | k :: _, b :: rest =>
        if bool_decide (k = b) && (1 <=? size)
        then EngineOut key validate rest (size - 1)
        else EngineOut key validate data (-1)
    | _, _ => EngineOut key validate data (-1)
    end.

(** A build with C++ exceptions disabled: a failed conversion returns a
    default value to its caller; raising an exception while one is pending
    ends the process. *)
Definition plain : misuse → reaction := λ k,
  match k with ThrowWhilePending => Terminate | _ => Proceed end.

(** A build in which every failed Node-API call throws a C++ exception. *)
Definition throwing : misuse → reaction := λ _, Unwind.

(** A process with the usual 8 MiB of stack, 64 KiB of it in use when the
    callback is entered, under a Node.js whose Buffers hold up to 2^53 - 1
    bytes. *)
Definition usual : platform :=
  Platform (8 * 1024 * 1024 - 65536) (2 ^ 53 - 1).

(** The same under [ulimit -s unlimited]: the stack takes what the address
    space gives. *)
Definition unlimited : platform := Platform (2 ^ 47) (2 ^ 53 - 1).

(** A process that is entered with 4 bytes of stack to spare. *)
Definition cramped : platform := Platform 4 (2 ^ 53 - 1).

(** The three working arrays of a call fit on the stack together. *)
Definition fits (host : platform) (key validate data : bytes) : Prop :=
  Z.of_nat (length key + length validate + length data) ≤ stack_room host.

(** The caller holds one Buffer, at address 7. *)
Definition caller_memory : memory := {[ 7%positive := [x6b; x02; x03] ]}.


(** [decryptx("k", "é", buffer)] *)
Definition sample_call : list value :=
  [JsString [0x6B%N]; JsString [0xE9%N]; JsBuffer 7].

(** 2 GiB of zeros. *)
Definition huge : bytes := replicate (Z.to_nat (2 ^ 31)) x00.

(** ** A Hoare logic for the body *)

Definition triple {A} (P : state → Prop) (c : M A)
    (Q : A → state → Prop) (E : state → Prop) : Prop :=
  ∀ s, P s →
    match c s with
    | Next a s' => Q a s'
    | Halt _ s' => E s'
    end.

(** The caller's memory [m] is intact, and the arrays of the frame (among
    them those of [ws]) are blocks that [m] does not have. *)
Definition private (m : memory) (ws : list addr) (s : state) : Prop :=
  m ⊆ mem s ∧
  (∀ a, a ∈ frame s → m !! a = None ∧ is_Some (mem s !! a)) ∧
  (∀ a, a ∈ ws → a ∈ frame s) ∧
  (∀ a n, Alloca a n ∈ trace s → a ∈ frame s).

(** A value that is no alias of anything the caller had or the frame has. *)
Definition unshared (m : memory) (v : value) (s : state) : Prop :=
  ∀ a, v = JsBuffer a →
    m !! a = None ∧ (a ∉ frame s) ∧ is_Some (mem s !! a).

(** ** Proof automation *)

Ltac lookups :=
  repeat first
    [ rewrite lookup_insert_eq
    | rewrite lookup_delete_eq
    | rewrite lookup_insert_ne by (done || by apply not_eq_sym)
    | rewrite lookup_delete_ne by (done || by apply not_eq_sym) ].

Ltac find := lookups; first [reflexivity | eassumption].

(** [H] puts an event into an explicit list that holds none of its kind. *)
Ltac no_such_event H :=
  repeat (apply elem_of_cons in H as [H|H]; [discriminate H|]);
  apply elem_of_nil in H.

(** Case analysis on whether [i] is one of three addresses. *)
Ltac among a1 a2 a3 i :=
  destruct (decide (a3 = i)) as [<-|];
  [|destruct (decide (a2 = i)) as [<-|];
    [|destruct (decide (a1 = i)) as [<-|]]].

(** ** Predicates for the properties beyond the claims *)

(** The four guards of [Decryptx], in the order they are written: the
    message of the first one that fails. *)
Definition reported (info : list value) : option string :=
  if (Length info <? 3)%nat then Some "Expected 3 arguments"%string
  else if negb (IsString (arg info 0)) then
    Some "Expected key to be a string"%string
  else if negb (IsString (arg info 1)) then
    Some "Expected validate to be a string"%string
  else if negb (IsBuffer (arg info 2)) then
    Some "Expected data to be a Buffer"%string
  else None.

(** The number of guards that fail. *)
Definition failures (info : list value) : nat :=
  (Nat.b2n (Length info <? 3) + Nat.b2n (negb (IsString (arg info 0))) +
   Nat.b2n (negb (IsString (arg info 1))) +
   Nat.b2n (negb (IsBuffer (arg info 2))))%nat.

(** Only [Buffer::Copy] reads as many bytes as it is told to, and it copies
    nothing while an exception is pending: a computation that leaves an
    array does so with none pending. *)
Definition bounded {A} (c : M A) : Prop :=
  ∀ s s', c s = Halt OutOfBounds s' → pending s' = None.

(** [msg] is the pending exception, and raising it was the first thing the
    call did. *)
Definition raised (msg : string) (s : state) : Prop :=
  pending s = Some msg ∧ ∃ rest, trace s = Thrown msg :: rest.

(** [enctypex_wrapper] has been entered. *)
Definition entered (s : state) : Prop :=
  ∃ key validate data size, Engine key validate data size ∈ trace s.

(** Memory holds nothing but what the caller had and the arrays of the
    frame. *)
Definition tidy (m : memory) (s : state) : Prop :=
  ∀ a, is_Some (mem s !! a) → is_Some (m !! a) ∨ a ∈ frame s.

Definition snug (m : memory) (ws : list addr) (s : state) : Prop :=
  private m ws s ∧ tidy m s.

(** How the body can end: with memory tidy, and then with [null] or with an
    exception pending; or with a Buffer that is the one block memory has
    gained. *)
Definition settled (m : memory) (v : value) (s : state) : Prop :=
  private m [] s ∧
  ((tidy m s ∧ (v = JsNull ∨ pending s ≠ None)) ∨
   (∃ a', v = JsBuffer a' ∧ pending s = None ∧ m !! a' = None ∧
          (a' ∉ frame s) ∧ is_Some (mem s !! a') ∧
          ∀ a, is_Some (mem s !! a) →
               is_Some (m !! a) ∨ a ∈ frame s ∨ a = a')).

(** [decryptx()] *)
Definition no_arguments : list value := [].

(** Decodes as [unwrapping] does, and overwrites the key and validate
    arrays it was handed. *)
Definition scribbling : bytes → bytes → bytes → Z → engine_out :=
  λ key validate data size,
    let o := unwrapping key validate data size in
    EngineOut (replicate (length key) xff) (replicate (length validate) xff)
      (out_data o) (ret o).

(** ** Arithmetic and array facts *)

Lemma length_inplace old new : length (inplace old new) = length old.
Proof.
  unfold inplace. rewrite length_take, length_app, length_drop. lia.
Qed.

Lemma inplace_fill old new : length new = length old → inplace old new = new.
Proof.
  intros H. unfold inplace. rewrite H, drop_all, app_nil_r, <- H.
  apply firstn_all.
Qed.

Lemma inplace_whole (b : bytes) :
  inplace (replicate (length b) x00) (take (length b) b) = b.
Proof.
  rewrite firstn_all. apply inplace_fill. by rewrite length_replicate.
Qed.

Lemma to_int_id z : 0 ≤ z ≤ INT_MAX → to_int z = z.
Proof. unfold to_int, INT_MAX. intros H. rewrite Z.mod_small; lia. Qed.

Lemma to_int_le z : 0 ≤ z → to_int z ≤ z.
Proof.
  unfold to_int. intros H.
  pose proof (Z.mod_le (z + 2 ^ 31) (2 ^ 32)). lia.
Qed.

Lemma to_int_bounds z : - 2 ^ 31 ≤ to_int z ≤ INT_MAX.
Proof.
  unfold to_int, INT_MAX.
  pose proof (Z.mod_pos_bound (z + 2 ^ 31) (2 ^ 32)). lia.
Qed.

Lemma to_size_t_id z : 0 ≤ z < 2 ^ 64 → to_size_t z = z.
Proof. unfold to_size_t. intros H. apply Z.mod_small. lia. Qed.

Lemma length_huge : Z.of_nat (length huge) = 2 ^ 31.
Proof. unfold huge. rewrite length_replicate. apply Z2Nat.id. lia. Qed.

Lemma fresh_lookup (m : memory) : m !! fresh (dom m) = None.
Proof. apply not_elem_of_dom, is_fresh. Qed.

(** ** UTF-8 lengths *)

Lemma length_utf8_scalar c : (1 ≤ length (utf8_scalar c))%nat.
Proof. unfold utf8_scalar. repeat case_match; simpl; lia. Qed.

Lemma length_utf8_scalar_wide c :
  (0x80 ≤ c)%N → (2 ≤ length (utf8_scalar c))%nat.
Proof.
  intros H. unfold utf8_scalar.
  destruct (c <? 0x80)%N eqn:E; [apply N.ltb_lt in E; lia|].
  repeat case_match; simpl; lia.
Qed.

Lemma length_replacement : length replacement = 3%nat.
Proof. reflexivity. Qed.

Lemma length_pair hi lo : length (utf8_scalar (pair_scalar hi lo)) = 4%nat.
Proof.
  unfold utf8_scalar, pair_scalar.
  repeat (case_match; [match goal with H : (_ <? _)%N = true |- _ =>
                         apply N.ltb_lt in H; lia end|]).
  reflexivity.
Qed.

Lemma length_utf8_bounded n : ∀ units,
  (length units ≤ n)%nat →
  (length units ≤ length (utf8 units))%nat ∧
  (Exists (λ u, (0x80 ≤ u)%N) units →
   (length units < length (utf8 units))%nat).
Proof.
  induction n as [|n IH]; intros units Hn.
  { destruct units; [|simpl in Hn; lia]. split; [done|].
    intros H. by apply Exists_nil in H. }
  destruct units as [|u rest]; [split; [done|intros H; by apply Exists_nil in H]|].
  simpl in Hn. simpl utf8.
  destruct (IH rest ltac:(lia)) as [Hle Hlt].
  destruct (is_lead u).
  - destruct rest as [|lo rest']; cbv beta iota.
    + simpl. lia.
    + destruct (is_trail lo).
      * rewrite length_app, length_pair.
        destruct (IH rest' ltac:(simpl in Hn; lia)) as [Hle' _].
        simpl length. lia.
      * simpl length in *. lia.
  - destruct (is_trail u).
    + simpl length in *. lia.
    + rewrite length_app. pose proof (length_utf8_scalar u) as Hu.
      simpl length. split; [lia|].
      intros Hex. apply Exists_cons in Hex as [Hex|Hex].
      * pose proof (length_utf8_scalar_wide u Hex). lia.
      * specialize (Hlt Hex). lia.
Qed.

Lemma length_utf8 units : (length units ≤ length (utf8 units))%nat.
Proof. by apply (length_utf8_bounded (length units)). Qed.

Lemma length_utf8_wide units :
  Exists (λ u, (0x80 ≤ u)%N) units → (length units < length (utf8 units))%nat.
Proof. by apply (length_utf8_bounded (length units)). Qed.

(** ** Running the primitives on an explicit state *)

Section Run.

Variable enctypex_wrapper : bytes → bytes → bytes → Z → engine_out.
Variable react : misuse → reaction.
Variable host : platform.

Lemma run_bind {A B} (c : M A) (k : A → M B) s a s' :
  c s = Next a s' → (c ≫= k) s = k a s'.
Proof. intros H. unfold mbind, M_bind. by rewrite H. Qed.

Lemma run_failed k g m f e t :
  react k = Proceed →
  failed react k g (State m f (Some e) t) = Next () (State m f (Some e) t).
Proof. intros H. unfold failed. simpl. by rewrite H. Qed.

Lemma run_bind_halt {A B} (c : M A) (k : A → M B) s e s' :
  c s = Halt e s' → (c ≫= k) s = Halt e s'.
Proof. intros H. unfold mbind, M_bind. by rewrite H. Qed.

Lemma run_failed_halt k g m f e t :
  react k ≠ Proceed →
  failed react k g (State m f (Some e) t) =
  Halt (match react k with Terminate => Terminated | _ => Unwound end)
    (State m f (Some e) t).
Proof. intros H. unfold failed. simpl. by destruct (react k). Qed.

Lemma run_Utf8Value_halt v m f e t :
  IsString v = false → react NotAString ≠ Proceed →
  Utf8Value react v (State m f (Some e) t) =
  Halt (match react NotAString with Terminate => Terminated | _ => Unwound end)
    (State m f (Some e) t).
Proof.
  intros Hv H. destruct v; try done; simpl;
    (erewrite run_bind_halt; [|by apply run_failed_halt]); done.
Qed.

Lemma run_error_halt msg m f e t :
  react ThrowWhilePending ≠ Proceed →
  error react msg (State m f (Some e) t) =
  Halt (match react ThrowWhilePending with
        | Terminate => Terminated
        | _ => Unwound
        end)
    (State m f (Some e) t).
Proof. intros H. by apply run_failed_halt. Qed.

Lemma run_error msg m f t :
  error react msg (State m f None t) =
  Next () (State m f (Some msg) (t ++ [Thrown msg])).
Proof. reflexivity. Qed.

Lemma run_Utf8Value_other v m f e t :
  IsString v = false → react NotAString = Proceed →
  Utf8Value react v (State m f (Some e) t) = Next [] (State m f (Some e) t).
Proof.
  intros Hv H. destruct v; try done; simpl;
    (erewrite run_bind; [|by apply run_failed]); done.
Qed.

Lemma run_alloca n m f p t :
  Z.of_nat (footprint (State m f p t) + n) ≤ stack_room host →
  alloca host n (State m f p t) =
  Next (fresh (dom m))
    (State (<[fresh (dom m) := replicate n x00]> m) (fresh (dom m) :: f) p
       (t ++ [Alloca (fresh (dom m)) n])).
Proof. intros H. unfold alloca. apply Z.leb_le in H. by rewrite H. Qed.

Lemma run_alloca_halt n m f p t :
  stack_room host < Z.of_nat (footprint (State m f p t) + n) →
  alloca host n (State m f p t) = Halt StackOverflow (State m f p t).
Proof. intros H. unfold alloca. apply Z.leb_gt in H. by rewrite H. Qed.

(** The footprint of a frame of at most two arrays that were just
    declared. *)
Lemma footprint_none (m : memory) p t : footprint (State m [] p t) = 0%nat.
Proof. reflexivity. Qed.

Lemma footprint_one (m : memory) a1 n1 p t :
  footprint (State (<[a1 := replicate n1 x00]> m) [a1] p t) = n1.
Proof.
  unfold footprint, block. cbn [frame mem foldr]. rewrite lookup_insert_eq.
  cbn. rewrite length_replicate. lia.
Qed.

Lemma footprint_two (m : memory) a1 a2 n1 n2 p t :
  a1 ≠ a2 →
  footprint
    (State (<[a2 := replicate n2 x00]> (<[a1 := replicate n1 x00]> m))
       [a2; a1] p t) = (n2 + n1)%nat.
Proof.
  intros N. unfold footprint, block. cbn [frame mem foldr].
  rewrite lookup_insert_eq, lookup_insert_ne, lookup_insert_eq by done.
  cbn. rewrite !length_replicate. lia.
Qed.

Lemma run_memcpy dst src n old m f p t :
  m !! dst = Some old →
  memcpy dst src n (State m f p t) =
  Next () (State (<[dst := inplace old (take n src)]> m) f p
             (t ++ [Memcpy dst src n])).
Proof. intros H. unfold memcpy, block. simpl. by rewrite H. Qed.

Lemma run_Buffer_Length a d m f p t :
  m !! a = Some d →
  Buffer_Length react (JsBuffer a) (State m f p t) =
  Next (length d) (State m f p t).
Proof. intros H. unfold Buffer_Length, block. simpl. by rewrite H. Qed.

Lemma run_Buffer_Data a d m f p t :
  m !! a = Some d →
  Buffer_Data react (JsBuffer a) (State m f p t) = Next d (State m f p t).
Proof. intros H. unfold Buffer_Data, block. simpl. by rewrite H. Qed.

Lemma run_call_enctypex_wrapper k v d kb vb db size m f p t :
  m !! k = Some kb → m !! v = Some vb → m !! d = Some db →
  call_enctypex_wrapper enctypex_wrapper k v d size (State m f p t) =
  let o := enctypex_wrapper kb vb db size in
  Next (ret o)
    (State (<[d := inplace db (out_data o)]>
              (<[v := inplace vb (out_validate o)]>
                 (<[k := inplace kb (out_key o)]> m)))
       f p (t ++ [Engine kb vb db size])).
Proof.
  intros Hk Hv Hd. unfold call_enctypex_wrapper, block. simpl.
  by rewrite Hk, Hv, Hd.
Qed.

Lemma run_Buffer_Copy src n b m f t :
  m !! src = Some b →
  Buffer_Copy react host src n (State m f None t) =
  if n <=? Z.of_nat (length b) then
    Next (JsBuffer (fresh (dom m)))
      (State (<[fresh (dom m) := take (Z.to_nat n) b]> m) f None
         (t ++ [BufferCopy src n]))
  else if kMaxLength host <? n then
    let s' := State m f (Some "ERR_BUFFER_TOO_LARGE"%string)
                (t ++ [BufferCopy src n; Thrown "ERR_BUFFER_TOO_LARGE"]) in
    match react TooLarge with
    | Proceed => Next JsUndefined s'
    | _ => Halt Unwound s'
    end
  else Halt OutOfBounds (State m f None (t ++ [BufferCopy src n])).
Proof.
  intros H. unfold Buffer_Copy, block. simpl. rewrite H. simpl.
  destruct (n <=? Z.of_nat (length b)); [done|].
  destruct (kMaxLength host <? n); [|done].
  unfold mbind, M_bind, refused, record. simpl. rewrite <- app_assoc.
  by destruct (react TooLarge).
Qed.

(** Three arrays declared one after the other are distinct blocks, and new
    to the memory they are declared in. *)
Lemma three_fresh (m : memory) (b1 b2 : bytes) a1 a2 a3 :
  a1 = fresh (dom m) →
  a2 = fresh (dom (<[a1 := b1]> m)) →
  a3 = fresh (dom (<[a2 := b2]> (<[a1 := b1]> m))) →
  (a1 ≠ a2 ∧ a1 ≠ a3 ∧ a2 ≠ a3) ∧
  m !! a1 = None ∧ m !! a2 = None ∧ m !! a3 = None.
Proof.
  intros E1 E2 E3.
  assert (F1 : m !! a1 = None) by (rewrite E1; apply fresh_lookup).
  pose proof (fresh_lookup (<[a1 := b1]> m)) as F2.
  rewrite <- E2 in F2. apply lookup_insert_None in F2 as [F2 N21].
  pose proof (fresh_lookup (<[a2 := b2]> (<[a1 := b1]> m))) as F3.
  rewrite <- E3 in F3. apply lookup_insert_None in F3 as [F3 N32].
  apply lookup_insert_None in F3 as [F3 N31]. done.
Qed.

(** The straight-line part of [Decryptx], from the first array to the
    return of [enctypex_wrapper], when the arrays fit on the stack. *)
Ltac room H N :=
  first [ rewrite footprint_two by exact N
        | rewrite footprint_one
        | rewrite footprint_none ];
  unfold fits in H; simpl length in H; lia.

Ltac marshal H N E1 E2 E3 :=
  erewrite run_bind; [|apply run_alloca; room H N]; cbv beta; rewrite <- E1;
  erewrite run_bind; [|apply run_alloca; room H N]; cbv beta; rewrite <- E2;
  erewrite run_bind; [|apply run_Buffer_Length; find]; cbv beta;
  erewrite run_bind; [|apply run_alloca; room H N]; cbv beta; rewrite <- E3;
  erewrite run_bind; [|apply run_memcpy; find]; cbv beta;
  erewrite run_bind; [|apply run_memcpy; find]; cbv beta;
  erewrite run_bind; [|apply run_Buffer_Data; find]; cbv beta;
  erewrite run_bind; [|apply run_Buffer_Length; find]; cbv beta;
  erewrite run_bind; [|apply run_memcpy; find]; cbv beta;
  erewrite run_bind; [|apply run_Buffer_Length; find]; cbv beta;
  erewrite run_bind; [|apply run_call_enctypex_wrapper; find];
  cbv beta zeta.

(** *** A well-formed call, up to the test of the engine's answer *)

Lemma Decryptx_wellformed (m : memory) key validate a d :
  m !! a = Some d →
  fits host (utf8 key) (utf8 validate) d →
  ∃ a1 a2 a3 : addr,
    (a1 ≠ a2 ∧ a1 ≠ a3 ∧ a2 ≠ a3) ∧
    m !! a1 = None ∧ m !! a2 = None ∧ m !! a3 = None ∧
    let kb := utf8 key in
    let vb := utf8 validate in
    let size := to_int (Z.of_nat (length d)) in
    let o := enctypex_wrapper kb vb d size in
    Decryptx enctypex_wrapper react host
      [JsString key; JsString validate; JsBuffer a] (enter m) =
    (if ret o =? -1 then mret JsNull
     else Buffer_Copy react host a3 (to_size_t (ret o)))
      (State (<[a3 := inplace d (out_data o)]>
                (<[a2 := inplace vb (out_validate o)]>
                   (<[a1 := inplace kb (out_key o)]> m)))
         [a3; a2; a1] None
         [Alloca a1 (length kb); Alloca a2 (length vb);
          Alloca a3 (length d); Memcpy a1 kb (length kb);
          Memcpy a2 vb (length vb); Memcpy a3 d (length d);
          Engine kb vb d size]).
Proof.
  intros Hd Hfit.
  set (kb := utf8 key) in *. set (vb := utf8 validate) in *.
  remember (fresh (dom m)) as a1 eqn:E1.
  remember (fresh (dom (<[a1 := replicate (length kb) x00]> m)))
    as a2 eqn:E2.
  remember (fresh (dom (<[a2 := replicate (length vb) x00]>
                          (<[a1 := replicate (length kb) x00]> m))))
    as a3 eqn:E3.
  destruct (three_fresh _ _ _ _ _ _ E1 E2 E3)
    as ((N12 & N13 & N23) & F1 & F2 & F3).
  assert (a1 ≠ a ∧ a2 ≠ a ∧ a3 ≠ a) as (Na1 & Na2 & Na3)
    by (split_and!; congruence).
  exists a1, a2, a3. split_and!; try done.
  cbv zeta. unfold Decryptx, enter.
  simpl Length. simpl arg. simpl when. simpl Utf8Value. simpl As_Buffer.
  fold kb vb.
  do 7 (erewrite run_bind; [|reflexivity]; cbv beta).
  marshal Hfit N12 E1 E2 E3.
  rewrite !inplace_whole. simpl app.
  f_equal. f_equal. apply map_eq. intros i.
  among a1 a2 a3 i; by lookups.
Qed.

(** *** The same call with a key that is no string, in a build that
    proceeds after the failed conversion *)

Lemma Decryptx_other_key (m : memory) v validate a d :
  IsString v = false → react NotAString = Proceed →
  m !! a = Some d →
  fits host [] (utf8 validate) d →
  ∃ a1 a2 a3 : addr,
    let msg := "Expected key to be a string"%string in
    let vb := utf8 validate in
    let size := to_int (Z.of_nat (length d)) in
    let o := enctypex_wrapper [] vb d size in
    Decryptx enctypex_wrapper react host [v; JsString validate; JsBuffer a]
      (enter m) =
    (if ret o =? -1 then mret JsNull
     else Buffer_Copy react host a3 (to_size_t (ret o)))
      (State (<[a3 := inplace d (out_data o)]>
                (<[a2 := inplace vb (out_validate o)]>
                   (<[a1 := inplace [] (out_key o)]> m)))
         [a3; a2; a1] (Some msg)
         [Thrown msg; Alloca a1 0; Alloca a2 (length vb);
          Alloca a3 (length d); Memcpy a1 [] 0;
          Memcpy a2 vb (length vb); Memcpy a3 d (length d);
          Engine [] vb d size]).
Proof.
  intros Hv Hr Hd Hfit.
  set (vb := utf8 validate) in *.
  remember (fresh (dom m)) as a1 eqn:E1.
  remember (fresh (dom (<[a1 := replicate 0 x00]> m))) as a2 eqn:E2.
  remember (fresh (dom (<[a2 := replicate (length vb) x00]>
                          (<[a1 := replicate 0 x00]> m))))
    as a3 eqn:E3.
  destruct (three_fresh _ _ _ _ _ _ E1 E2 E3)
    as ((N12 & N13 & N23) & F1 & F2 & F3).
  assert (a1 ≠ a ∧ a2 ≠ a ∧ a3 ≠ a) as (Na1 & Na2 & Na3)
    by (split_and!; congruence).
  exists a1, a2, a3.
  cbv zeta. unfold Decryptx, enter.
  change (arg [v; JsString validate; JsBuffer a] 0) with v.
  change (arg [v; JsString validate; JsBuffer a] 1) with (JsString validate).
  change (arg [v; JsString validate; JsBuffer a] 2) with (JsBuffer a).
  rewrite Hv. simpl Length. simpl when. simpl Utf8Value at 2.
  simpl As_Buffer.
  erewrite run_bind; [|reflexivity]; cbv beta.
  erewrite run_bind; [|apply run_error]; cbv beta.
  do 2 (erewrite run_bind; [|reflexivity]; cbv beta).
  erewrite run_bind; [|by apply run_Utf8Value_other]; cbv beta.
  do 2 (erewrite run_bind; [|reflexivity]; cbv beta).
  fold vb. change (length (@nil byte)) with 0%nat.
  marshal Hfit N12 E1 E2 E3.
  rewrite !inplace_whole. change (take 0 []) with (@nil byte).
  change (inplace (replicate 0 x00) []) with (@nil byte). simpl app.
  f_equal. f_equal. apply map_eq. intros i.
  among a1 a2 a3 i; by lookups.
Qed.

(** *** A well-formed call, as JavaScript sees it *)

Lemma decryptx_wellformed (m : memory) key validate a d :
  m !! a = Some d →
  fits host (utf8 key) (utf8 validate) d →
  ∃ a1 a2 a3 a4 : addr,
    (a1 ≠ a2 ∧ a1 ≠ a3 ∧ a2 ≠ a3 ∧ a4 ≠ a1 ∧ a4 ≠ a2 ∧ a4 ≠ a3) ∧
    m !! a1 = None ∧ m !! a2 = None ∧ m !! a3 = None ∧ m !! a4 = None ∧
    let kb := utf8 key in
    let vb := utf8 validate in
    let size := to_int (Z.of_nat (length d)) in
    let o := enctypex_wrapper kb vb d size in
    let t := [Alloca a1 (length kb); Alloca a2 (length vb);
              Alloca a3 (length d); Memcpy a1 kb (length kb);
              Memcpy a2 vb (length vb); Memcpy a3 d (length d);
              Engine kb vb d size] in
    decryptx enctypex_wrapper react host m
      [JsString key; JsString validate; JsBuffer a] =
    if ret o =? -1 then CallResult (Returns JsNull) m t
    else if to_size_t (ret o) <=? Z.of_nat (length d) then
      CallResult (Returns (JsBuffer a4))
        (<[a4 := take (Z.to_nat (to_size_t (ret o)))
                   (inplace d (out_data o))]> m)
        (t ++ [BufferCopy a3 (to_size_t (ret o))])
    else if kMaxLength host <? to_size_t (ret o) then
      CallResult (Throws "ERR_BUFFER_TOO_LARGE") m
        (t ++ [BufferCopy a3 (to_size_t (ret o));
               Thrown "ERR_BUFFER_TOO_LARGE"])
    else CallResult Undefined m (t ++ [BufferCopy a3 (to_size_t (ret o))]).
Proof.
  intros Hd Hfit.
  destruct (Decryptx_wellformed m key validate a d Hd Hfit)
    as (a1 & a2 & a3 & (N12 & N13 & N23) & F1 & F2 & F3 & E).
  cbv zeta in E.
  set (kb := utf8 key) in *. set (vb := utf8 validate) in *.
  set (o := enctypex_wrapper kb vb d (to_int (Z.of_nat (length d)))) in *.
  set (m' := <[a3 := inplace d (out_data o)]>
               (<[a2 := inplace vb (out_validate o)]>
                  (<[a1 := inplace kb (out_key o)]> m))) in *.
  assert (L : foldr delete m' [a3; a2; a1] = m).
  { simpl. apply map_eq. intros i. unfold m'. among a1 a2 a3 i; by lookups. }
  remember (fresh (dom m')) as a4 eqn:E4.
  pose proof (fresh_lookup m') as F4. rewrite <- E4 in F4.
  apply lookup_insert_None in F4 as [F4 N34].
  apply lookup_insert_None in F4 as [F4 N24].
  apply lookup_insert_None in F4 as [F4 N14].
  exists a1, a2, a3, a4.
  split_and!; try done; try (by apply not_eq_sym).
  cbv zeta. fold kb vb o. unfold decryptx. rewrite E. clear E.
  destruct (ret o =? -1) eqn:Er.
  { simpl. unfold leave. simpl mem. simpl frame. by rewrite L. }
  erewrite run_Buffer_Copy by (unfold m'; find).
  rewrite length_inplace, <- E4.
  destruct (to_size_t (ret o) <=? Z.of_nat (length d)).
  { simpl. f_equal. unfold leave. simpl. apply map_eq. intros i.
    among a1 a2 a3 i; [lookups; by rewrite ?F1, ?F2, ?F3..|].
    destruct (decide (a4 = i)) as [<-|]; [by lookups|].
    unfold m'. by lookups. }
  destruct (kMaxLength host <? to_size_t (ret o)).
  - cbv zeta. destruct (react TooLarge); simpl; unfold leave; simpl mem;
      simpl frame; by rewrite L.
  - simpl. unfold leave. simpl mem. simpl frame. by rewrite L.
Qed.

(** *** A well-formed call whose arrays do not fit on the stack *)

Lemma decryptx_overflows (m : memory) key validate a d :
  m !! a = Some d →
  ¬ fits host (utf8 key) (utf8 validate) d →
  ∃ a1 a2 : addr,
    let kb := utf8 key in
    let vb := utf8 validate in
    decryptx enctypex_wrapper react host m
      [JsString key; JsString validate; JsBuffer a] =
    CallResult Dies m
      (if Z.of_nat (length kb) <=? stack_room host then
         if Z.of_nat (length kb + length vb) <=? stack_room host then
           [Alloca a1 (length kb); Alloca a2 (length vb)]
         else [Alloca a1 (length kb)]
       else []).
Proof.
  intros Hd Hfit.
  set (kb := utf8 key) in *. set (vb := utf8 validate) in *.
  remember (fresh (dom m)) as a1 eqn:E1.
  remember (fresh (dom (<[a1 := replicate (length kb) x00]> m)))
    as a2 eqn:E2.
  remember (fresh (dom (<[a2 := replicate (length vb) x00]>
                          (<[a1 := replicate (length kb) x00]> m))))
    as a3 eqn:E3.
  destruct (three_fresh _ _ _ _ _ _ E1 E2 E3)
    as ((N12 & N13 & N23) & F1 & F2 & F3).
  assert (a1 ≠ a ∧ a2 ≠ a ∧ a3 ≠ a) as (Na1 & Na2 & Na3)
    by (split_and!; congruence).
  exists a1, a2. cbv zeta. unfold fits in Hfit.
  unfold decryptx, Decryptx, enter.
  simpl Length. simpl arg. simpl when. simpl Utf8Value. simpl As_Buffer.
  fold kb vb.
  do 7 (erewrite run_bind; [|reflexivity]; cbv beta).
  destruct (Z.leb_spec (Z.of_nat (length kb)) (stack_room host)) as [R1|R1].
  2: { erewrite run_bind_halt;
         [|apply run_alloca_halt; rewrite footprint_none; lia].
       done. }
  erewrite run_bind; [|apply run_alloca; rewrite footprint_none; lia].
  cbv beta. rewrite <- E1.
  destruct (Z.leb_spec (Z.of_nat (length kb + length vb)) (stack_room host))
    as [R2|R2].
  2: { erewrite run_bind_halt;
         [|apply run_alloca_halt; rewrite footprint_one; lia].
       simpl. f_equal. unfold leave. simpl. apply map_eq. intros i.
       destruct (decide (a1 = i)) as [<-|]; by lookups. }
  erewrite run_bind; [|apply run_alloca; rewrite footprint_one; lia].
  cbv beta. rewrite <- E2.
  erewrite run_bind; [|apply run_Buffer_Length; find]. cbv beta.
  erewrite run_bind_halt;
    [|apply run_alloca_halt; rewrite footprint_two by done; lia].
  simpl. f_equal. unfold leave. simpl. apply map_eq. intros i.
  destruct (decide (a2 = i)) as [<-|]; [by lookups|].
  destruct (decide (a1 = i)) as [<-|]; by lookups.
Qed.

End Run.

(** ** The caller's memory is out of the body's reach *)

Section Logic.

Variable enctypex_wrapper : bytes → bytes → bytes → Z → engine_out.
Variable react : misuse → reaction.
Variable host : platform.
Variable m : memory.

Lemma triple_bind {A B} P (c : M A) Q (k : A → M B) R E :
  triple P c Q E → (∀ a, triple (Q a) (k a) R E) →
  triple P (c ≫= k) R E.
Proof.
  intros Hc Hk s HP. specialize (Hc s HP). unfold mbind, M_bind.
  destruct (c s) as [a s'|e s']; [by apply Hk|done].
Qed.

Lemma triple_post {A} P (c : M A) (Q Q' : A → state → Prop) E :
  triple P c Q E → (∀ a s, Q a s → Q' a s) → triple P c Q' E.
Proof.
  intros Hc HQ s HP. specialize (Hc s HP).
  destruct (c s); [by apply HQ|done].
Qed.

Lemma private_enter : private m [] (enter m).
Proof.
  split_and!; simpl; try done.
  - intros a Ha. by apply elem_of_nil in Ha.
  - intros a n Ha. by apply elem_of_nil in Ha.
Qed.

Lemma private_nil ws s : private m ws s → private m [] s.
Proof.
  intros (H1 & H2 & _ & H4). split_and!; try done.
  intros a Ha. by apply elem_of_nil in Ha.
Qed.

Lemma private_record e ws s :
  (∀ a n, e ≠ Alloca a n) → private m ws s → private m ws (record e s).
Proof.
  intros He (H1 & H2 & H3 & H4). split_and!; try done.
  intros a n. simpl. rewrite elem_of_app, list_elem_of_singleton.
  intros [H|H]; [by eapply H4|]. by destruct (He a n).
Qed.

Lemma private_pending ws s p :
  private m ws s → private m ws (State (mem s) (frame s) p (trace s)).
Proof. done. Qed.

Lemma private_poke ws s a b :
  a ∈ frame s → private m ws s → private m ws (poke a b s).
Proof.
  intros Ha (H1 & H2 & H3 & H4). split_and!; try done; simpl.
  - apply insert_subseteq_r; [|done]. by apply H2.
  - intros x Hx. split; [by apply H2|].
    destruct (decide (a = x)) as [->|]; lookups; [done|]. by apply H2.
Qed.

Lemma private_fresh ws s : private m ws s → m !! fresh (dom (mem s)) = None.
Proof.
  intros (H1 & _). pose proof (fresh_lookup (mem s)) as F.
  destruct (m !! fresh (dom (mem s))) eqn:E; [|done].
  eapply lookup_weaken in E; [|done]. congruence.
Qed.

Lemma triple_failed k g ws :
  triple (private m ws) (failed react k g) (λ _, private m ws)
    (private m []).
Proof.
  intros s H. unfold failed.
  assert (private m ws
            match pending s with
            | Some _ => s
            | None => record (Thrown g)
                        (State (mem s) (frame s) (Some g) (trace s))
            end).
  { destruct (pending s); [done|].
    apply private_record; [done|]. by apply private_pending. }
  destruct (react k); try done; by eapply private_nil.
Qed.

Lemma triple_refused k g ws :
  triple (private m ws) (refused react k g) (λ _, private m ws)
    (private m []).
Proof.
  intros s H. unfold refused.
  assert (private m ws
            match pending s with
            | Some _ => s
            | None => record (Thrown g)
                        (State (mem s) (frame s) (Some g) (trace s))
            end).
  { destruct (pending s); [done|].
    apply private_record; [done|]. by apply private_pending. }
  destruct (react k); try done; by eapply private_nil.
Qed.

Lemma triple_error msg ws :
  triple (private m ws) (error react msg) (λ _, private m ws) (private m []).
Proof.
  intros s H. unfold error, ThrowAsJavaScriptException.
  destruct (pending s) eqn:Ep.
  - by apply triple_failed.
  - apply private_record; [done|]. by apply private_pending.
Qed.

Lemma triple_when b c ws :
  triple (private m ws) c (λ _, private m ws) (private m []) →
  triple (private m ws) (when b c) (λ _, private m ws) (private m []).
Proof. destruct b; [done|]. by intros _ s H. Qed.

Lemma triple_failed_then {A} k g (a : A) ws :
  triple (private m ws) (failed react k g;; mret a) (λ _, private m ws)
    (private m []).
Proof.
  eapply triple_bind; [apply triple_failed|]. by intros _ s H.
Qed.

Lemma triple_Utf8Value v ws :
  triple (private m ws) (Utf8Value react v) (λ _, private m ws)
    (private m []).
Proof. destruct v; try apply triple_failed_then. by intros s H. Qed.

Lemma triple_As_Buffer v ws :
  triple (private m ws) (As_Buffer react v) (λ _, private m ws)
    (private m []).
Proof. destruct v; try apply triple_failed_then. by intros s H. Qed.

Lemma triple_Buffer_Length v ws :
  triple (private m ws) (Buffer_Length react v) (λ _, private m ws)
    (private m []).
Proof. destruct v; try apply triple_failed_then. by intros s H. Qed.

Lemma triple_Buffer_Data v ws :
  triple (private m ws) (Buffer_Data react v) (λ _, private m ws)
    (private m []).
Proof. destruct v; try apply triple_failed_then. by intros s H. Qed.

Lemma triple_alloca n ws :
  triple (private m ws) (alloca host n) (λ a, private m (a :: ws))
    (private m []).
Proof.
  intros s H. unfold alloca. cbv zeta.
  destruct (Z.of_nat (footprint s + n) <=? stack_room host);
    [|by eapply private_nil].
  pose proof (private_fresh _ _ H) as Fm.
  destruct H as (H1 & H2 & H3 & H4).
  set (a := fresh (dom (mem s))) in *.
  split_and!; simpl.
  - by apply insert_subseteq_r.
  - intros x Hx. apply elem_of_cons in Hx as [->|Hx]; [by lookups|].
    split; [by apply H2|].
    destruct (decide (a = x)) as [->|]; lookups; [done|]. by apply H2.
  - intros x. rewrite !elem_of_cons. intros [->|H]; [by left|].
    right. by apply H3.
  - intros x k. rewrite elem_of_app, list_elem_of_singleton, elem_of_cons.
    intros [H|H]; [right; by eapply H4|]. left. congruence.
Qed.

Lemma triple_memcpy dst src n ws :
  dst ∈ ws →
  triple (private m ws) (memcpy dst src n) (λ _, private m ws)
    (private m []).
Proof.
  intros Hd s H. unfold memcpy.
  apply private_record; [done|]. apply private_poke; [|done].
  by apply H.
Qed.

Lemma triple_call_enctypex_wrapper k v d size ws :
  k ∈ ws → v ∈ ws → d ∈ ws →
  triple (private m ws) (call_enctypex_wrapper enctypex_wrapper k v d size)
    (λ _, private m ws) (private m []).
Proof.
  intros Hk Hv Hd s H. unfold call_enctypex_wrapper. cbv zeta.
  assert (∀ a, a ∈ ws → a ∈ frame s) as Hf by apply H.
  repeat (apply private_poke; [by apply Hf|]).
  by apply private_record.
Qed.

Lemma triple_Buffer_Copy src n ws :
  triple (private m ws) (Buffer_Copy react host src n)
    (λ v s, private m ws s ∧ unshared m v s) (private m []).
Proof.
  intros s H. unfold Buffer_Copy. cbv zeta.
  assert (H' : private m ws (record (BufferCopy src n) s)).
  { by apply private_record. }
  destruct (pending s).
  - eapply (triple_bind _ _ _ _ (λ v s, private m ws s ∧ unshared m v s));
      [apply triple_failed| |done].
    intros _ s' Hs'. split; [done|]. by intros a.
  - destruct (n <=? _).
    2: { destruct (kMaxLength host <? n); [|by eapply private_nil].
         eapply (triple_bind _ _ _ _
                   (λ v s, private m ws s ∧ unshared m v s));
           [apply triple_refused| |done].
         intros _ s' Hs'. split; [done|]. by intros a. }
    pose proof (private_fresh _ _ H) as Fm.
    pose proof (fresh_lookup (mem s)) as Fs.
    generalize dependent (fresh (dom (mem s))). intros a Fm Fs.
    assert (Ff : a ∉ frame s).
    { intros Ha. apply H in Ha as [_ [b Hb]]. congruence. }
    destruct H' as (H1 & H2 & H3 & H4). split.
    + split_and!; simpl; try done.
      * by apply insert_subseteq_r.
      * intros x Hx. split; [by apply H2|].
        destruct (decide (a = x)) as [->|]; lookups; [done|]. by apply H2.
    + intros x [= <-]. split_and!; try done. simpl. by lookups.
Qed.

Lemma triple_Decryptx info :
  triple (private m []) (Decryptx enctypex_wrapper react host info)
    (λ v s, private m [] s ∧ unshared m v s) (private m []).
Proof.
  unfold Decryptx.
  do 4 (eapply triple_bind; [apply triple_when, triple_error|intros []]).
  eapply triple_bind; [apply triple_Utf8Value|intros key].
  eapply triple_bind; [apply triple_Utf8Value|intros validate].
  eapply triple_bind; [apply triple_As_Buffer|intros data].
  eapply triple_bind; [apply triple_alloca|intros a1].
  eapply triple_bind; [apply triple_alloca|intros a2].
  eapply triple_bind; [apply triple_Buffer_Length|intros len].
  eapply triple_bind; [apply triple_alloca|intros a3].
  assert (a1 ∈ [a3; a2; a1] ∧ a2 ∈ [a3; a2; a1] ∧ a3 ∈ [a3; a2; a1])
    as (I1 & I2 & I3) by (rewrite !elem_of_cons; tauto).
  eapply triple_bind; [by apply triple_memcpy|intros []].
  eapply triple_bind; [by apply triple_memcpy|intros []].
  eapply triple_bind; [apply triple_Buffer_Data|intros src].
  eapply triple_bind; [apply triple_Buffer_Length|intros len'].
  eapply triple_bind; [by apply triple_memcpy|intros []].
  eapply triple_bind; [apply triple_Buffer_Length|intros len''].
  eapply triple_bind; [by apply triple_call_enctypex_wrapper|intros r].
  destruct (r =? -1).
  - intros s H. split; [by eapply private_nil|]. by intros a.
  - eapply triple_post; [apply triple_Buffer_Copy|].
    intros v s [H U]. split; [by eapply private_nil|done].
Qed.

Lemma leave_private s : private m [] s → m ⊆ leave s.
Proof.
  intros (H1 & H2 & _ & _). unfold leave.
  assert (∀ a, a ∈ frame s → m !! a = None) as Hf by (intros; by apply H2).
  clear H2. induction (frame s) as [|a f IH]; [done|]. simpl.
  apply map_subseteq_spec. intros i x Hi.
  destruct (decide (a = i)) as [->|].
  - rewrite Hf in Hi; [done|]. by left.
  - lookups. eapply lookup_weaken; [exact Hi|].
    apply IH. intros y Hy. apply Hf. by right.
Qed.

Lemma leave_lookup s a : a ∉ frame s → leave s !! a = mem s !! a.
Proof.
  unfold leave. induction (frame s) as [|x f IH]; [done|].
  rewrite not_elem_of_cons. intros [Hx Hf]. simpl. lookups. by apply IH.
Qed.

(** Whatever the call and however it ends: the caller's blocks are as they
    were, and a returned Buffer is a block the caller did not have and the
    frame never held. *)
Lemma decryptx_private info :
  let res := decryptx enctypex_wrapper react host m info in
  m ⊆ heap res ∧
  ∀ a, outcome res = Returns (JsBuffer a) →
    m !! a = None ∧ is_Some (heap res !! a) ∧ ∀ n, Alloca a n ∉ log res.
Proof.
  pose proof (triple_Decryptx info (enter m) private_enter) as H.
  unfold decryptx.
  destruct (Decryptx enctypex_wrapper react host info (enter m))
    as [v s|e s].
  - destruct H as [H U]. simpl. split; [by apply leave_private|].
    intros a Ha. destruct (pending s); [done|]. injection Ha as ->.
    destruct (U a eq_refl) as (U1 & U2 & U3). split_and!; try done.
    + by rewrite leave_lookup.
    + intros n Hn. apply U2. by apply H in Hn.
  - destruct e; simpl; (split; [by apply leave_private|done]).
Qed.

End Logic.

(** * The claims *)

(** ** Precondition failures *)

(** C1 (the code departs from it): a call whose key is not a string is
    reported, "Expected key to be a string", but [Decryptx] has no [return]
    after [error]: in a build where the failed [Utf8Value] returns to its
    caller, the call goes on to declare the three working arrays (the stack
    having room for them), to copy into them, and to enter
    [enctypex_wrapper] with an empty key, on the caller's data.  JavaScript
    still sees the exception, or the end of the process. *)
Theorem Decryptx_continues_after_error engine react host (m : memory)
    v validate a d :
  IsString v = false → react NotAString = Proceed → m !! a = Some d →
  fits host [] (utf8 validate) d →
  let res := decryptx engine react host m
               [v; JsString validate; JsBuffer a] in
  let vb := utf8 validate in
  (∃ a1 a2 a3 rest,
     log res =
       [Thrown "Expected key to be a string"; Alloca a1 0;
        Alloca a2 (length vb); Alloca a3 (length d); Memcpy a1 [] 0;
        Memcpy a2 vb (length vb); Memcpy a3 d (length d);
        Engine [] vb d (to_int (Z.of_nat (length d)))] ++ rest) ∧
  (outcome res = Throws "Expected key to be a string" ∨ outcome res = Dies).
Proof.
  intros Hv Hr Hd Hfit res vb.
  destruct (Decryptx_other_key engine react host m v validate a d
              Hv Hr Hd Hfit)
    as (a1 & a2 & a3 & E).
  cbv zeta in E. fold vb in E. unfold res, decryptx. rewrite E. clear E.
  destruct (ret _ =? -1).
  - split; [|by left]. exists a1, a2, a3, []. by rewrite app_nil_r.
  - unfold Buffer_Copy, mbind, M_bind, failed. simpl.
    destruct (react CreateWhilePending); simpl;
      (split; [by exists a1, a2, a3, [BufferCopy a3 (to_size_t (ret
         (engine [] vb d (to_int (Z.of_nat (length d))))))]|]);
      first [by left | by right].
Qed.

Lemma Decryptx_continues_after_error_witness :
  IsString (JsNumber 42) = false ∧ plain NotAString = Proceed ∧
  caller_memory !! 7%positive = Some [x6b; x02; x03] ∧
  fits usual [] (utf8 [0xE9%N]) [x6b; x02; x03] ∧
  ∃ a1 a2 a3 rest,
    log (decryptx (answering 2) plain usual caller_memory
           [JsNumber 42; JsString [0xE9%N]; JsBuffer 7]) =
      [Thrown "Expected key to be a string"; Alloca a1 0;
       Alloca a2 2; Alloca a3 3; Memcpy a1 [] 0;
       Memcpy a2 [xc3; xa9] 2; Memcpy a3 [x6b; x02; x03] 3;
       Engine [] [xc3; xa9] [x6b; x02; x03] 3] ++ rest.
Proof.
  assert (R : fits usual [] (utf8 [0xE9%N]) [x6b; x02; x03])
    by (vm_compute; discriminate).
  split_and!; [reflexivity..|exact R|].
  apply (Decryptx_continues_after_error (answering 2) plain usual
           caller_memory (JsNumber 42) [0xE9%N] 7%positive [x6b; x02; x03]
           eq_refl eq_refl eq_refl R).
Defined.


(** In a build where the failed conversion throws a C++ exception, or ends
    the process, that call stops at the conversion instead: no array has
    been declared. *)
Lemma Decryptx_stops_at_conversion engine react host (m : memory)
    v validate a :
  IsString v = false → react NotAString ≠ Proceed →
  let res := decryptx engine react host m
               [v; JsString validate; JsBuffer a] in
  log res = [Thrown "Expected key to be a string"] ∧
  heap res = m ∧
  outcome res = match react NotAString with
                | Terminate => Dies
                | _ => Throws "Expected key to be a string"
                end.
Proof.
  intros Hv Hr res. unfold res, decryptx, Decryptx, enter.
  change (arg [v; JsString validate; JsBuffer a] 0) with v.
  change (arg [v; JsString validate; JsBuffer a] 1) with (JsString validate).
  change (arg [v; JsString validate; JsBuffer a] 2) with (JsBuffer a).
  rewrite Hv. simpl Length. simpl when.
  erewrite run_bind; [|reflexivity]; cbv beta.
  erewrite run_bind; [|apply run_error]; cbv beta.
  do 2 (erewrite run_bind; [|reflexivity]; cbv beta).
  erewrite run_bind_halt; [|by apply run_Utf8Value_halt].
  by destruct (react NotAString).
Qed.

(** With two arguments the missing third is reported first, "Expected 3
    arguments", and then, [undefined] being no Buffer, [error] is called a
    second time while that exception is pending: the call ends there in a
    build that throws or ends the process on it. *)
Lemma Decryptx_reports_twice engine react host (m : memory) key validate :
  react ThrowWhilePending ≠ Proceed →
  let res := decryptx engine react host m
               [JsString key; JsString validate] in
  log res = [Thrown "Expected 3 arguments"] ∧
  outcome res = match react ThrowWhilePending with
                | Terminate => Dies
                | _ => Throws "Expected 3 arguments"
                end.
Proof.
  intros Hr res. unfold res, decryptx, Decryptx, enter.
  change (arg [JsString key; JsString validate] 0) with (JsString key).
  change (arg [JsString key; JsString validate] 1) with (JsString validate).
  change (arg [JsString key; JsString validate] 2) with JsUndefined.
  simpl Length. simpl when.
  erewrite run_bind; [|apply run_error]; cbv beta.
  do 2 (erewrite run_bind; [|reflexivity]; cbv beta).
  erewrite run_bind_halt; [|by apply run_error_halt].
  by destruct (react ThrowWhilePending).
Qed.

(** ** Well-formed calls *)

(** C2: on a well-formed call for which the engine returns [r] with
    [0 ≤ r] (within its contract: [r] is at most the length it was given),
    the stack having had room for the three working arrays, decryptx returns
    a Buffer of exactly [r] bytes, the first [r] bytes of the working array
    as the engine left it; that Buffer is a block of its own: writing to it
    leaves the caller's data as it was, and writing to the caller's data
    leaves it as it was. *)
Theorem decryptx_returns_prefix engine react host (m : memory)
    key validate a d r :
  m !! a = Some d →
  fits host (utf8 key) (utf8 validate) d →
  ret (engine (utf8 key) (utf8 validate) d (to_int (Z.of_nat (length d))))
    = r →
  0 ≤ r →
  within_contract r (to_int (Z.of_nat (length d))) →
  let res := decryptx engine react host m
               [JsString key; JsString validate; JsBuffer a] in
  let working :=
    inplace d (out_data (engine (utf8 key) (utf8 validate) d
                           (to_int (Z.of_nat (length d))))) in
  ∃ a' b,
    outcome res = Returns (JsBuffer a') ∧
    heap res !! a' = Some b ∧
    Z.of_nat (length b) = r ∧
    b = take (Z.to_nat r) working ∧
    a' ≠ a ∧
    heap res !! a = Some d ∧
    (∀ b', <[a' := b']> (heap res) !! a = Some d) ∧
    (∀ d', <[a := d']> (heap res) !! a' = Some b).
Proof.
  intros Hd Hfit Hr H0 [Hc|Hc] res working; [lia|].
  destruct (decryptx_wellformed engine react host m key validate a d Hd Hfit)
    as (a1 & a2 & a3 & a4 & _ & _ & _ & _ & F4 & E).
  cbv zeta in E. rewrite Hr in E.
  pose proof (to_int_le (Z.of_nat (length d)) ltac:(lia)) as Hle.
  pose proof (to_int_bounds (Z.of_nat (length d))) as Hb. unfold INT_MAX in Hb.
  assert (Hs : to_size_t r = r) by (apply to_size_t_id; lia).
  rewrite Hs in E.
  destruct (r =? -1) eqn:E1; [lia|].
  destruct (r <=? Z.of_nat (length d)) eqn:E2; [|lia].
  assert (Na : a4 ≠ a) by congruence.
  unfold res. rewrite E. simpl.
  exists a4, (take (Z.to_nat r) working). fold working.
  split_and!; try done; try intros ?; lookups; try done.
  rewrite length_take. unfold working. rewrite length_inplace. lia.
Qed.

Lemma decryptx_returns_prefix_witness :
  caller_memory !! 7%positive = Some [x6b; x02; x03] ∧
  fits usual (utf8 [0x6B%N]) (utf8 [0xE9%N]) [x6b; x02; x03] ∧
  ret (unwrapping (utf8 [0x6B%N]) (utf8 [0xE9%N]) [x6b; x02; x03]
         (to_int (Z.of_nat (length [x6b; x02; x03])))) = 2 ∧
  0 ≤ 2 ∧
  within_contract 2 (to_int (Z.of_nat (length [x6b; x02; x03]))) ∧
  ∃ a' b,
    outcome (decryptx unwrapping plain usual caller_memory sample_call)
      = Returns (JsBuffer a') ∧
    heap (decryptx unwrapping plain usual caller_memory sample_call) !! a'
      = Some b ∧
    Z.of_nat (length b) = 2 ∧
    b = take (Z.to_nat 2) (inplace [x6b; x02; x03] [x02; x03]).
Proof.
  assert (R : fits usual (utf8 [0x6B%N]) (utf8 [0xE9%N]) [x6b; x02; x03])
    by (vm_compute; discriminate).
  assert (C : within_contract 2 (to_int (Z.of_nat (length [x6b; x02; x03]))))
    by (right; vm_compute; split; discriminate).
  split_and!; [reflexivity|exact R|reflexivity|lia|exact C|].
  destruct (decryptx_returns_prefix unwrapping plain usual caller_memory
              [0x6B%N] [0xE9%N] 7%positive [x6b; x02; x03] 2
              eq_refl R eq_refl ltac:(lia) C)
    as (a' & b & H1 & H2 & H3 & H4 & _).
  exists a', b. split_and!; assumption.
Defined.

(** C3: on a well-formed call for which the engine returns [-1], the stack
    having had room for the three working arrays, decryptx returns [null];
    nothing is thrown, [Buffer::Copy] is never asked for a buffer, and
    memory is as the caller left it. *)
Theorem decryptx_absent engine react host (m : memory) key validate a d :
  m !! a = Some d →
  fits host (utf8 key) (utf8 validate) d →
  ret (engine (utf8 key) (utf8 validate) d (to_int (Z.of_nat (length d))))
    = -1 →
  let res := decryptx engine react host m
               [JsString key; JsString validate; JsBuffer a] in
  outcome res = Returns JsNull ∧
  heap res = m ∧
  (∀ src n, BufferCopy src n ∉ log res) ∧
  (∀ msg, Thrown msg ∉ log res).
Proof.
  intros Hd Hfit Hr res.
  destruct (decryptx_wellformed engine react host m key validate a d Hd Hfit)
    as (a1 & a2 & a3 & a4 & _ & _ & _ & _ & _ & E).
  cbv zeta in E. rewrite Hr in E. change (-1 =? -1) with true in E.
  unfold res. rewrite E. simpl. split_and!; try done.
  - intros src n H. by no_such_event H.
  - intros msg H. by no_such_event H.
Qed.

Lemma decryptx_absent_witness :
  caller_memory !! 7%positive = Some [x6b; x02; x03] ∧
  fits usual (utf8 [0x6B%N]) (utf8 [0xE9%N]) [x6b; x02; x03] ∧
  ret (answering (-1) (utf8 [0x6B%N]) (utf8 [0xE9%N]) [x6b; x02; x03]
         (to_int (Z.of_nat (length [x6b; x02; x03])))) = -1 ∧
  outcome (decryptx (answering (-1)) plain usual caller_memory sample_call)
    = Returns JsNull ∧
  heap (decryptx (answering (-1)) plain usual caller_memory sample_call)
    = caller_memory.
Proof.
  assert (R : fits usual (utf8 [0x6B%N]) (utf8 [0xE9%N]) [x6b; x02; x03])
    by (vm_compute; discriminate).
  split_and!; [reflexivity|exact R|reflexivity|..];
    apply (decryptx_absent (answering (-1)) plain usual caller_memory
             [0x6B%N] [0xE9%N] 7%positive [x6b; x02; x03]
             eq_refl R eq_refl).
Defined.

(** ** Marshalling *)

(** What the gateway does with a well-formed call whose arrays fit on the
    stack: it declares three arrays of exactly the byte lengths of key,
    validate and data, copies the three inputs into them whole, and enters
    the engine on those contents, with data's byte length converted to
    [int]. *)
Lemma decryptx_marshals engine react host (m : memory) key validate a d :
  m !! a = Some d →
  fits host (utf8 key) (utf8 validate) d →
  let res := decryptx engine react host m
               [JsString key; JsString validate; JsBuffer a] in
  let kb := utf8 key in
  let vb := utf8 validate in
  ∃ a1 a2 a3 rest,
    (a1 ≠ a2 ∧ a1 ≠ a3 ∧ a2 ≠ a3) ∧
    (m !! a1 = None ∧ m !! a2 = None ∧ m !! a3 = None) ∧
    (∀ k v b n, Engine k v b n ∉ rest) ∧
    log res =
      [Alloca a1 (length kb); Alloca a2 (length vb); Alloca a3 (length d);
       Memcpy a1 kb (length kb); Memcpy a2 vb (length vb);
       Memcpy a3 d (length d);
       Engine kb vb d (to_int (Z.of_nat (length d)))] ++ rest.
Proof.
  intros Hd Hfit res kb vb.
  destruct (decryptx_wellformed engine react host m key validate a d Hd Hfit)
    as (a1 & a2 & a3 & a4 & (N12 & N13 & N23 & _) & F1 & F2 & F3 & _ & E).
  cbv zeta in E. fold kb vb in E. unfold res. rewrite E. clear E.
  destruct (ret _ =? -1); [|destruct (_ <=? _); [|destruct (_ <? _)]];
    simpl log.
  - exists a1, a2, a3, []. rewrite app_nil_r. split_and!; try done.
    intros k v b n H. by apply elem_of_nil in H.
  - eexists a1, a2, a3, _. split_and!; try done.
    intros k v b n H. by no_such_event H.
  - eexists a1, a2, a3, _. split_and!; try done.
    intros k v b n H. by no_such_event H.
  - eexists a1, a2, a3, _. split_and!; try done.
    intros k v b n H. by no_such_event H.
Qed.

(** A well-formed call whose arrays do not fit on the stack is the end of
    the process: nothing is copied and the engine is never entered. *)
Lemma decryptx_stack_overflow engine react host (m : memory)
    key validate a d :
  m !! a = Some d →
  ¬ fits host (utf8 key) (utf8 validate) d →
  let res := decryptx engine react host m
               [JsString key; JsString validate; JsBuffer a] in
  outcome res = Dies ∧ heap res = m ∧
  (∀ k v b n, Engine k v b n ∉ log res) ∧
  (∀ dst src n, Memcpy dst src n ∉ log res).
Proof.
  intros Hd Hfit res.
  destruct (decryptx_overflows engine react host m key validate a d Hd Hfit)
    as (a1 & a2 & E).
  cbv zeta in E. unfold res. rewrite E. clear E. simpl.
  split_and!; try done.
  - intros k v b n H. repeat case_match; by no_such_event H.
  - intros dst src n H. repeat case_match; by no_such_event H.
Qed.

(** The engine is entered on a well-formed call exactly when the arrays
    fit on the stack. *)
Lemma decryptx_enters_iff_fits engine react host (m : memory)
    key validate a d :
  m !! a = Some d →
  let res := decryptx engine react host m
               [JsString key; JsString validate; JsBuffer a] in
  (∃ k v b n, Engine k v b n ∈ log res) ↔
  fits host (utf8 key) (utf8 validate) d.
Proof.
  intros Hd res. split.
  - intros (k & v & b & n & H).
    destruct (Z.le_gt_cases
                (Z.of_nat (length (utf8 key) + length (utf8 validate)
                           + length d)) (stack_room host)) as [Hfit|Hfit];
      [exact Hfit|].
    assert (Hno : ¬ fits host (utf8 key) (utf8 validate) d)
      by (unfold fits; lia).
    destruct (decryptx_stack_overflow engine react host m key validate a d
                Hd Hno) as (_ & _ & He & _).
    by apply He in H.
  - intros Hfit.
    destruct (decryptx_marshals engine react host m key validate a d Hd Hfit)
      as (a1 & a2 & a3 & rest & _ & _ & _ & E).
    fold res in E. rewrite E. eexists _, _, _, _.
    apply elem_of_app. left.
    rewrite !elem_of_cons. repeat first [by left | right].
Qed.

(** With 4 bytes of stack to spare, the sample call (arrays of 1, 2 and 3
    bytes) dies at the third array. *)
Lemma sample_call_overflows :
  ∃ a1 a2,
    decryptx unwrapping plain cramped caller_memory sample_call =
    CallResult Dies caller_memory [Alloca a1 1; Alloca a2 2].
Proof.
  assert (Hno : ¬ fits cramped (utf8 [0x6B%N]) (utf8 [0xE9%N])
                    [x6b; x02; x03]) by (vm_compute; by intros H).
  destruct (decryptx_overflows unwrapping plain cramped caller_memory
              [0x6B%N] [0xE9%N] 7%positive [x6b; x02; x03] eq_refl Hno)
    as (a1 & a2 & E).
  exists a1, a2. unfold sample_call. cbv zeta in E. rewrite E. reflexivity.
Qed.

(** C4 (the code departs from it): the length argument of
    [enctypex_wrapper] is an [int] and is handed [data.Length()], a
    [size_t].  For a data Buffer of more than [INT_MAX] bytes the engine is
    never entered with data's byte length: where the stack has room for the
    arrays, the whole of data is copied and the engine is entered on it with
    a smaller number; where it has not, the process dies at the array
    declarations, before any copy. *)
Theorem decryptx_narrows_length engine react host (m : memory)
    key validate a d :
  m !! a = Some d →
  INT_MAX < Z.of_nat (length d) →
  let res := decryptx engine react host m
               [JsString key; JsString validate; JsBuffer a] in
  let kb := utf8 key in
  let vb := utf8 validate in
  (¬ ∃ k v b, Engine k v b (Z.of_nat (length d)) ∈ log res) ∧
  (fits host kb vb d →
   (∃ a3, Alloca a3 (length d) ∈ log res ∧
          Memcpy a3 d (length d) ∈ log res) ∧
   Engine kb vb d (to_int (Z.of_nat (length d))) ∈ log res ∧
   to_int (Z.of_nat (length d)) < Z.of_nat (length d)) ∧
  (¬ fits host kb vb d →
   outcome res = Dies ∧ ∀ k v b n, Engine k v b n ∉ log res).
Proof.
  intros Hd Hlen res kb vb.
  pose proof (to_int_bounds (Z.of_nat (length d))) as Hb.
  destruct (Z.le_gt_cases
              (Z.of_nat (length kb + length vb + length d)) (stack_room host))
    as [Hfit|Hfit].
  - destruct (decryptx_marshals engine react host m key validate a d Hd Hfit)
      as (a1 & a2 & a3 & rest & _ & _ & Hrest & E).
    fold res kb vb in E. rewrite E. split_and!.
    + intros (k & v & b & H). apply elem_of_app in H as [H|H].
      * repeat (apply elem_of_cons in H as [H|H];
                [first [discriminate H | injection H; lia]|]).
        by apply elem_of_nil in H.
      * by apply Hrest in H.
    + intros _. split_and!; [|apply elem_of_app; left..|lia].
      * exists a3. split; apply elem_of_app; left;
          rewrite !elem_of_cons; repeat first [by left | right].
      * rewrite !elem_of_cons. repeat first [by left | right].
    + intros H. by destruct H.
  - assert (Hno : ¬ fits host (utf8 key) (utf8 validate) d)
      by (unfold fits; fold kb vb; lia).
    destruct (decryptx_stack_overflow engine react host m key validate a d
                Hd Hno) as (Ho & _ & He & _).
    fold res in Ho, He. split_and!.
    + intros (k & v & b & H). by apply He in H.
    + intros H. by destruct Hno.
    + intros _. by split.
Qed.

Lemma fits_unlimited_huge : fits unlimited (utf8 []) (utf8 []) huge.
Proof.
  unfold fits.
  change (length (utf8 []) + length (utf8 []) + length huge)%nat
    with (length huge).
  rewrite length_huge. done.
Qed.

Lemma decryptx_narrows_length_witness :
  ({[1%positive := huge]} : memory) !! 1%positive = Some huge ∧
  INT_MAX < Z.of_nat (length huge) ∧
  fits unlimited (utf8 []) (utf8 []) huge ∧
  Engine (utf8 []) (utf8 []) huge (to_int (Z.of_nat (length huge))) ∈
    log (decryptx (answering (-1)) plain unlimited {[1%positive := huge]}
           [JsString []; JsString []; JsBuffer 1]) ∧
  to_int (Z.of_nat (length huge)) = - 2 ^ 31 ∧
  ¬ ∃ k v b, Engine k v b (Z.of_nat (length huge)) ∈
    log (decryptx (answering (-1)) plain unlimited {[1%positive := huge]}
           [JsString []; JsString []; JsBuffer 1]).
Proof.
  assert (L : INT_MAX < Z.of_nat (length huge))
    by (rewrite length_huge; done).
  pose proof (decryptx_narrows_length (answering (-1)) plain unlimited
                {[1%positive := huge]} [] [] 1%positive huge
                (lookup_singleton_eq _ _) L) as (H1 & H2 & _).
  split_and!.
  - apply lookup_singleton_eq.
  - exact L.
  - exact fits_unlimited_huge.
  - exact (proj1 (proj2 (H2 fits_unlimited_huge))).
  - rewrite length_huge. reflexivity.
  - exact H1.
Defined.

(** ** Bounds, isolation and determinism *)

(** C5: on a well-formed call where the engine keeps its contract (it
    returns [-1], or some [r] from 0 to the length it was given), a
    decoded result has at most as many bytes as the data had; and where the
    stack had room for the working arrays the call does end with [null] or
    with such a result. *)
Theorem decryptx_never_grows engine react host (m : memory)
    key validate a d :
  m !! a = Some d →
  within_contract
    (ret (engine (utf8 key) (utf8 validate) d (to_int (Z.of_nat (length d)))))
    (to_int (Z.of_nat (length d))) →
  let res := decryptx engine react host m
               [JsString key; JsString validate; JsBuffer a] in
  (∀ a', outcome res = Returns (JsBuffer a') →
     ∃ b, heap res !! a' = Some b ∧ (length b ≤ length d)%nat) ∧
  (fits host (utf8 key) (utf8 validate) d →
   outcome res = Returns JsNull ∨ ∃ a', outcome res = Returns (JsBuffer a')).
Proof.
  intros Hd Hc res.
  destruct (Z.le_gt_cases
              (Z.of_nat (length (utf8 key) + length (utf8 validate)
                         + length d)) (stack_room host)) as [Hfit|Hfit].
  2: { assert (Hno : ¬ fits host (utf8 key) (utf8 validate) d)
         by (unfold fits; lia).
       destruct (decryptx_stack_overflow engine react host m key validate
                   a d Hd Hno) as (Ho & _).
       fold res in Ho. rewrite Ho. split; [done|]. intros H. by destruct Hno. }
  destruct (decryptx_wellformed engine react host m key validate a d Hd Hfit)
    as (a1 & a2 & a3 & a4 & _ & _ & _ & _ & _ & E).
  cbv zeta in E. unfold res. rewrite E. clear E.
  pose proof (to_int_le (Z.of_nat (length d)) ltac:(lia)) as Hle.
  pose proof (to_int_bounds (Z.of_nat (length d))) as Hb. unfold INT_MAX in Hb.
  destruct Hc as [->|Hc].
  { change (-1 =? -1) with true. simpl. split; [done|by left]. }
  destruct (ret _ =? -1) eqn:E1; [lia|].
  rewrite to_size_t_id by lia.
  destruct (_ <=? Z.of_nat (length d)) eqn:E2; [|lia]. simpl.
  split; [|right; by exists a4].
  intros a' [= <-]. eexists. split; [by lookups|].
  rewrite length_take, length_inplace. lia.
Qed.

Lemma decryptx_never_grows_witness :
  caller_memory !! 7%positive = Some [x6b; x02; x03] ∧
  within_contract
    (ret (unwrapping (utf8 [0x6B%N]) (utf8 [0xE9%N]) [x6b; x02; x03]
            (to_int (Z.of_nat (length [x6b; x02; x03])))))
    (to_int (Z.of_nat (length [x6b; x02; x03]))) ∧
  (∀ a', outcome (decryptx unwrapping plain usual caller_memory sample_call)
           = Returns (JsBuffer a') →
     ∃ b, heap (decryptx unwrapping plain usual caller_memory sample_call)
            !! a' = Some b ∧ (length b ≤ 3)%nat) ∧
  ∃ a', outcome (decryptx unwrapping plain usual caller_memory sample_call)
          = Returns (JsBuffer a').
Proof.
  assert (C : within_contract
                (ret (unwrapping (utf8 [0x6B%N]) (utf8 [0xE9%N])
                        [x6b; x02; x03]
                        (to_int (Z.of_nat (length [x6b; x02; x03])))))
                (to_int (Z.of_nat (length [x6b; x02; x03]))))
    by (right; vm_compute; split; discriminate).
  split_and!; [reflexivity|exact C|..].
  - apply (decryptx_never_grows unwrapping plain usual caller_memory
             [0x6B%N] [0xE9%N] 7%positive [x6b; x02; x03] eq_refl C).
  - eexists. reflexivity.
Defined.

(** C6: whatever the call, well-formed or not, and however it ends, every
    block the caller had, the data buffer among them, holds the same bytes
    afterwards; and a Buffer that is returned is a block the caller did not
    have and that was never one of the gateway's working arrays. *)
Theorem decryptx_frame engine react host (m : memory) info :
  let res := decryptx engine react host m info in
  (∀ a d, m !! a = Some d → heap res !! a = Some d) ∧
  (∀ a', outcome res = Returns (JsBuffer a') →
     m !! a' = None ∧ is_Some (heap res !! a') ∧
     ∀ n, Alloca a' n ∉ log res).
Proof.
  intros res.
  destruct (decryptx_private engine react host m info) as [Hsub Hnew].
  split; [|exact Hnew].
  intros a d Hd. by eapply lookup_weaken.
Qed.

Lemma decryptx_frame_witness :
  caller_memory !! 7%positive = Some [x6b; x02; x03] ∧
  heap (decryptx unwrapping plain usual caller_memory sample_call)
    !! 7%positive = Some [x6b; x02; x03] ∧
  heap (decryptx (answering 2) plain usual caller_memory
          [JsNumber 42; JsString [0xE9%N]; JsBuffer 7]) !! 7%positive
    = Some [x6b; x02; x03].
Proof.
  split_and!; [reflexivity|..].
  - destruct (decryptx_frame unwrapping plain usual caller_memory
                sample_call) as [H _].
    exact (H 7%positive [x6b; x02; x03] eq_refl).
  - destruct (decryptx_frame (answering 2) plain usual caller_memory
                [JsNumber 42; JsString [0xE9%N]; JsBuffer 7]) as [H _].
    exact (H 7%positive [x6b; x02; x03] eq_refl).
Defined.

(** C7: two well-formed calls with the same key, the same validate and
    data buffers of the same bytes, wherever those buffers live and whatever
    else memory holds, end alike: both with [null], or both with Buffers of
    the same bytes. *)
Theorem decryptx_deterministic engine react host (m1 m2 : memory)
    key validate a1 a2 d :
  m1 !! a1 = Some d → m2 !! a2 = Some d →
  observe (decryptx engine react host m1
             [JsString key; JsString validate; JsBuffer a1]) =
  observe (decryptx engine react host m2
             [JsString key; JsString validate; JsBuffer a2]).
Proof.
  intros H1 H2.
  destruct (Z.le_gt_cases
              (Z.of_nat (length (utf8 key) + length (utf8 validate)
                         + length d)) (stack_room host)) as [Hfit|Hfit].
  2: { assert (Hno : ¬ fits host (utf8 key) (utf8 validate) d)
         by (unfold fits; lia).
       destruct (decryptx_stack_overflow engine react host m1 key validate
                   a1 d H1 Hno) as (O1 & _).
       destruct (decryptx_stack_overflow engine react host m2 key validate
                   a2 d H2 Hno) as (O2 & _).
       unfold observe. by rewrite O1, O2. }
  destruct (decryptx_wellformed engine react host m1 key validate a1 d
              H1 Hfit)
    as (? & ? & ? & b1 & _ & _ & _ & _ & _ & E1).
  destruct (decryptx_wellformed engine react host m2 key validate a2 d
              H2 Hfit)
    as (? & ? & ? & b2 & _ & _ & _ & _ & _ & E2).
  cbv zeta in E1, E2. rewrite E1, E2. clear E1 E2.
  destruct (ret _ =? -1); [done|].
  destruct (_ <=? _); [|by destruct (_ <? _)].
  unfold observe. simpl. by lookups.
Qed.

Lemma decryptx_deterministic_witness :
  caller_memory !! 7%positive = Some [x6b; x02; x03] ∧
  (<[9%positive := [x6b; x02; x03]]> caller_memory) !! 9%positive
    = Some [x6b; x02; x03] ∧
  observe (decryptx unwrapping plain usual caller_memory sample_call) =
  observe (decryptx unwrapping plain usual
             (<[9%positive := [x6b; x02; x03]]> caller_memory)
             [JsString [0x6B%N]; JsString [0xE9%N]; JsBuffer 9]).
Proof.
  split_and!; [reflexivity..|].
  by apply (decryptx_deterministic unwrapping plain usual caller_memory
              (<[9%positive := [x6b; x02; x03]]> caller_memory)
              [0x6B%N] [0xE9%N] 7%positive 9%positive [x6b; x02; x03]).
Defined.

(** ** Boundaries *)



(** C9: on a well-formed call that the stack had room for, the result is
    [null] exactly when the engine returned [-1]; for any other return
    value [r], negative ones such as [-2] included, the gateway goes on to
    [Buffer::Copy] and asks it for [(size_t) r] bytes of the working array
    of data (which is [r] itself when [r] is not negative); that request is
    what follows the engine's return. *)
Theorem decryptx_only_minus_one engine react host (m : memory)
    key validate a d r :
  m !! a = Some d →
  fits host (utf8 key) (utf8 validate) d →
  ret (engine (utf8 key) (utf8 validate) d (to_int (Z.of_nat (length d))))
    = r →
  let res := decryptx engine react host m
               [JsString key; JsString validate; JsBuffer a] in
  (outcome res = Returns JsNull ↔ r = -1) ∧
  (r ≠ -1 →
   ∃ a3 before after,
     Alloca a3 (length d) ∈ before ∧
     log res =
       before ++ [Engine (utf8 key) (utf8 validate) d
                    (to_int (Z.of_nat (length d)));
                  BufferCopy a3 (to_size_t r)] ++ after) ∧
  (0 ≤ r < 2 ^ 64 → to_size_t r = r).
Proof.
  intros Hd Hfit Hr res.
  destruct (decryptx_wellformed engine react host m key validate a d Hd Hfit)
    as (a1 & a2 & a3 & a4 & _ & _ & _ & _ & _ & E).
  cbv zeta in E. rewrite Hr in E. unfold res. rewrite E. clear E.
  split_and!; [| |apply to_size_t_id].
  - destruct (r =? -1) eqn:E1.
    + simpl. split; [lia|done].
    + destruct (_ <=? _); [|destruct (_ <? _)]; simpl; (split; [done|lia]).
  - intros Hne. destruct (r =? -1) eqn:E1; [lia|].
    exists a3,
      [Alloca a1 (length (utf8 key)); Alloca a2 (length (utf8 validate));
       Alloca a3 (length d);
       Memcpy a1 (utf8 key) (length (utf8 key));
       Memcpy a2 (utf8 validate) (length (utf8 validate));
       Memcpy a3 d (length d)].
    destruct (_ <=? _); [|destruct (_ <? _)]; simpl log.
    + exists []. split; [|done].
      rewrite !elem_of_cons. repeat first [by left | right].
    + exists [Thrown "ERR_BUFFER_TOO_LARGE"]. split; [|done].
      rewrite !elem_of_cons. repeat first [by left | right].
    + exists []. split; [|done].
      rewrite !elem_of_cons. repeat first [by left | right].
Qed.

Lemma decryptx_only_minus_one_witness :
  caller_memory !! 7%positive = Some [x6b; x02; x03] ∧
  fits usual (utf8 [0x6B%N]) (utf8 [0xE9%N]) [x6b; x02; x03] ∧
  ret (answering (-2) (utf8 [0x6B%N]) (utf8 [0xE9%N]) [x6b; x02; x03]
         (to_int (Z.of_nat (length [x6b; x02; x03])))) = -2 ∧
  (outcome (decryptx (answering (-2)) plain usual caller_memory sample_call)
     = Returns JsNull ↔ -2 = -1) ∧
  (-2 ≠ -1 →
   ∃ a3 before after,
     Alloca a3 (length [x6b; x02; x03]) ∈ before ∧
     log (decryptx (answering (-2)) plain usual caller_memory sample_call) =
       before ++ [Engine (utf8 [0x6B%N]) (utf8 [0xE9%N]) [x6b; x02; x03]
                    (to_int (Z.of_nat (length [x6b; x02; x03])));
                  BufferCopy a3 (to_size_t (-2))] ++ after).
Proof.
  assert (R : fits usual (utf8 [0x6B%N]) (utf8 [0xE9%N]) [x6b; x02; x03])
    by (vm_compute; discriminate).
  split_and!; [reflexivity|exact R|reflexivity|..];
    apply (decryptx_only_minus_one (answering (-2)) plain usual
             caller_memory [0x6B%N] [0xE9%N] 7%positive [x6b; x02; x03] (-2)
             eq_refl R eq_refl).
Defined.

(** C10: on a well-formed call that the stack had room for, the key and
    validate bytes the engine is entered with are the UTF-8 encodings of the
    two strings, and the first two working arrays have the lengths of those
    encodings: never less than the number of UTF-16 units of the string, and
    more as soon as one unit is not ASCII. *)
Theorem decryptx_passes_utf8 engine react host (m : memory)
    key validate a d :
  m !! a = Some d →
  fits host (utf8 key) (utf8 validate) d →
  let res := decryptx engine react host m
               [JsString key; JsString validate; JsBuffer a] in
  (∃ a1 a2 rest,
     a1 ≠ a2 ∧
     log res = Alloca a1 (length (utf8 key))
                 :: Alloca a2 (length (utf8 validate)) :: rest ∧
     Memcpy a1 (utf8 key) (length (utf8 key)) ∈ rest ∧
     Memcpy a2 (utf8 validate) (length (utf8 validate)) ∈ rest ∧
     (∃ size, Engine (utf8 key) (utf8 validate) d size ∈ rest) ∧
     ∀ k v b n, Engine k v b n ∈ rest → k = utf8 key ∧ v = utf8 validate) ∧
  (length key ≤ length (utf8 key))%nat ∧
  (length validate ≤ length (utf8 validate))%nat ∧
  (Exists (λ u, (0x80 ≤ u)%N) key → (length key < length (utf8 key))%nat) ∧
  (Exists (λ u, (0x80 ≤ u)%N) validate →
   (length validate < length (utf8 validate))%nat).
Proof.
  intros Hd Hfit res.
  split_and!; [|apply length_utf8|apply length_utf8
               |apply length_utf8_wide|apply length_utf8_wide].
  destruct (decryptx_wellformed engine react host m key validate a d Hd Hfit)
    as (a1 & a2 & a3 & a4 & (N12 & _) & _ & _ & _ & _ & E).
  cbv zeta in E. unfold res. rewrite E. clear E.
  exists a1, a2.
  destruct (ret _ =? -1); [|destruct (_ <=? _); [|destruct (_ <? _)]];
    simpl log;
    (eexists; split_and!; [done|reflexivity|..];
     [rewrite !elem_of_cons; repeat first [by left | right]..| |];
     [eexists; rewrite !elem_of_cons; repeat first [by left | right]|];
     intros k v b n H;
     repeat (apply elem_of_cons in H as [H|H];
             [first [discriminate H | by injection H as -> -> _ _]|]);
     by apply elem_of_nil in H).
Qed.

Lemma decryptx_passes_utf8_witness :
  caller_memory !! 7%positive = Some [x6b; x02; x03] ∧
  fits usual (utf8 [0x6B%N]) (utf8 [0xE9%N]) [x6b; x02; x03] ∧
  utf8 [0xE9%N] = [xc3; xa9] ∧
  (length [0xE9%N] < length (utf8 [0xE9%N]))%nat ∧
  ∃ a1 a2 rest,
    log (decryptx unwrapping plain usual caller_memory sample_call) =
      Alloca a1 1 :: Alloca a2 2 :: rest ∧
    ∃ size, Engine [x6b] [xc3; xa9] [x6b; x02; x03] size ∈ rest.
Proof.
  assert (R : fits usual (utf8 [0x6B%N]) (utf8 [0xE9%N]) [x6b; x02; x03])
    by (vm_compute; discriminate).
  split_and!; [reflexivity|exact R|reflexivity|..].
  - apply (decryptx_passes_utf8 unwrapping plain usual caller_memory
             [0x6B%N] [0xE9%N] 7%positive [x6b; x02; x03] eq_refl R).
    apply Exists_cons_hd. done.
  - destruct (decryptx_passes_utf8 unwrapping plain usual caller_memory
                [0x6B%N] [0xE9%N] 7%positive [x6b; x02; x03] eq_refl R)
      as [(a1 & a2 & rest & _ & H1 & _ & _ & H2 & _) _].
    exists a1, a2, rest. split; [exact H1|exact H2].
Defined.

(** * Beyond the claims *)

(** ** Invariants that no step of the body can break *)

Section Stable.

Variable enctypex_wrapper : bytes → bytes → bytes → Z → engine_out.
Variable react : misuse → reaction.
Variable host : platform.
Variable I : state → Prop.

Hypothesis I_log : ∀ e s, I s → I (record e s).
Hypothesis I_mem : ∀ m f s, I s → I (State m f (pending s) (trace s)).
Hypothesis I_raise : ∀ g s,
  pending s = None → I s → I (State (mem s) (frame s) (Some g) (trace s)).

Lemma stable_ret {A} (a : A) : triple I (mret a) (λ _, I) I.
Proof. by intros s H. Qed.

Lemma stable_failed k g : triple I (failed react k g) (λ _, I) I.
Proof.
  intros s H. unfold failed.
  assert (I match pending s with
            | Some _ => s
            | None => record (Thrown g)
                        (State (mem s) (frame s) (Some g) (trace s))
            end).
  { destruct (pending s) eqn:Ep; [done|]. by apply I_log, I_raise. }
  by destruct (react k).
Qed.

Lemma stable_refused k g : triple I (refused react k g) (λ _, I) I.
Proof.
  intros s H. unfold refused.
  assert (I match pending s with
            | Some _ => s
            | None => record (Thrown g)
                        (State (mem s) (frame s) (Some g) (trace s))
            end).
  { destruct (pending s) eqn:Ep; [done|]. by apply I_log, I_raise. }
  by destruct (react k).
Qed.

Lemma stable_error msg : triple I (error react msg) (λ _, I) I.
Proof.
  intros s H. unfold error, ThrowAsJavaScriptException.
  destruct (pending s) eqn:Ep.
  - by apply stable_failed.
  - by apply I_log, I_raise.
Qed.

Lemma stable_when b msg : triple I (when b (error react msg)) (λ _, I) I.
Proof. destruct b; [apply stable_error|apply stable_ret]. Qed.

Lemma stable_failed_then {A} k g (a : A) :
  triple I (failed react k g;; mret a) (λ _, I) I.
Proof.
  eapply triple_bind; [apply stable_failed|]. intros []. apply stable_ret.
Qed.

Lemma stable_Utf8Value v : triple I (Utf8Value react v) (λ _, I) I.
Proof. destruct v; try apply stable_failed_then. apply stable_ret. Qed.

Lemma stable_As_Buffer v : triple I (As_Buffer react v) (λ _, I) I.
Proof. destruct v; try apply stable_failed_then. apply stable_ret. Qed.

Lemma stable_Buffer_Length v : triple I (Buffer_Length react v) (λ _, I) I.
Proof. destruct v; try apply stable_failed_then. by intros s H. Qed.

Lemma stable_Buffer_Data v : triple I (Buffer_Data react v) (λ _, I) I.
Proof. destruct v; try apply stable_failed_then. by intros s H. Qed.

Lemma stable_alloca n : triple I (alloca host n) (λ _, I) I.
Proof.
  intros s H. unfold alloca. cbv zeta.
  destruct (_ <=? _); [|done]. by apply I_log, (I_mem _ _ s).
Qed.

Lemma stable_memcpy dst src n : triple I (memcpy dst src n) (λ _, I) I.
Proof. intros s H. unfold memcpy. by apply I_log, (I_mem _ _ s). Qed.

Lemma stable_call_enctypex_wrapper k v d size :
  triple I (call_enctypex_wrapper enctypex_wrapper k v d size) (λ _, I) I.
Proof.
  intros s H. unfold call_enctypex_wrapper. cbv zeta.
  by apply (I_mem _ _ (record _ s)), I_log.
Qed.

Lemma stable_Buffer_Copy src n :
  triple I (Buffer_Copy react host src n) (λ _, I) I.
Proof.
  intros s H. unfold Buffer_Copy. cbv zeta.
  pose proof (I_log (BufferCopy src n) s H) as H'.
  destruct (pending s) eqn:Ep.
  - by apply (stable_failed_then CreateWhilePending _ JsUndefined).
  - destruct (_ <=? _); [by apply (I_mem _ _ (record _ s))|].
    destruct (_ <? _); [|done].
    eapply triple_bind; [apply stable_refused| |exact H'].
    intros []. apply stable_ret.
Qed.

End Stable.

(** ** Where a read can leave an array *)

Section Bounded.

Variable enctypex_wrapper : bytes → bytes → bytes → Z → engine_out.
Variable react : misuse → reaction.
Variable host : platform.

Lemma bounded_bind {A B} (c : M A) (k : A → M B) :
  bounded c → (∀ a, bounded (k a)) → bounded (c ≫= k).
Proof.
  intros Hc Hk s s'. unfold mbind, M_bind.
  destruct (c s) as [a s1|e s1] eqn:E; [apply Hk|].
  intros [= -> ->]. by apply (Hc s).
Qed.

Lemma bounded_ret {A} (a : A) : bounded (mret a : M A).
Proof. by intros s s'. Qed.

Lemma bounded_failed k g : bounded (failed react k g).
Proof. intros s s'. unfold failed. by destruct (react k). Qed.

Lemma bounded_refused k g : bounded (refused react k g).
Proof. intros s s'. unfold refused. by destruct (react k). Qed.

Lemma bounded_failed_then {A} k g (a : A) :
  bounded (failed react k g;; mret a).
Proof.
  apply bounded_bind; [apply bounded_failed|]. intros []. apply bounded_ret.
Qed.

Lemma bounded_when b msg : bounded (when b (error react msg)).
Proof.
  destruct b; [|apply bounded_ret]. intros s s'.
  unfold when, error, ThrowAsJavaScriptException.
  destruct (pending s); [apply bounded_failed|done].
Qed.

Lemma bounded_Utf8Value v : bounded (Utf8Value react v).
Proof. destruct v; try apply bounded_failed_then. apply bounded_ret. Qed.

Lemma bounded_As_Buffer v : bounded (As_Buffer react v).
Proof. destruct v; try apply bounded_failed_then. apply bounded_ret. Qed.

Lemma bounded_Buffer_Length v : bounded (Buffer_Length react v).
Proof. destruct v; try apply bounded_failed_then. by intros s s'. Qed.

Lemma bounded_Buffer_Data v : bounded (Buffer_Data react v).
Proof. destruct v; try apply bounded_failed_then. by intros s s'. Qed.

Lemma bounded_alloca n : bounded (alloca host n).
Proof. intros s s'. unfold alloca. by destruct (_ <=? _). Qed.

Lemma bounded_memcpy dst src n : bounded (memcpy dst src n).
Proof. by intros s s'. Qed.

Lemma bounded_call_enctypex_wrapper k v d size :
  bounded (call_enctypex_wrapper enctypex_wrapper k v d size).
Proof. by intros s s'. Qed.

Lemma bounded_Buffer_Copy src n : bounded (Buffer_Copy react host src n).
Proof.
  intros s s'. unfold Buffer_Copy. cbv zeta.
  destruct (pending s) eqn:Ep.
  - apply bounded_failed_then.
  - destruct (_ <=? _); [done|]. destruct (_ <? _).
    + apply (bounded_bind (refused react TooLarge _) (λ _, mret JsUndefined));
        [apply bounded_refused|intros []; apply bounded_ret].
    + by intros [= <-].
Qed.

Lemma bounded_Decryptx info : bounded (Decryptx enctypex_wrapper react host info).
Proof.
  unfold Decryptx.
  repeat (apply bounded_bind;
          [first [ apply bounded_when | apply bounded_Utf8Value
                 | apply bounded_As_Buffer | apply bounded_alloca
                 | apply bounded_Buffer_Length | apply bounded_Buffer_Data
                 | apply bounded_memcpy
                 | apply bounded_call_enctypex_wrapper ]
          |intros ?]).
  match goal with
  | |- bounded (if ?b then _ else _) =>
      destruct b; [apply bounded_ret|apply bounded_Buffer_Copy]
  end.
Qed.

End Bounded.

(** ** The two invariants the framework is used at *)

Lemma raised_log msg e s : raised msg s → raised msg (record e s).
Proof.
  intros [Hp [rest Ht]]. split; [done|]. simpl. rewrite Ht.
  by exists (rest ++ [e]).
Qed.

Lemma raised_mem msg m f s :
  raised msg s → raised msg (State m f (pending s) (trace s)).
Proof. done. Qed.

Lemma raised_raise msg g s :
  pending s = None → raised msg s →
  raised msg (State (mem s) (frame s) (Some g) (trace s)).
Proof. intros Hn [Hp _]. congruence. Qed.

Lemma entered_log e s : entered s → entered (record e s).
Proof.
  intros (k & v & d & n & H). exists k, v, d, n. simpl.
  apply elem_of_app. by left.
Qed.

Lemma entered_mem m f s : entered s → entered (State m f (pending s) (trace s)).
Proof. done. Qed.

Lemma entered_raise g s :
  pending s = None → entered s →
  entered (State (mem s) (frame s) (Some g) (trace s)).
Proof. done. Qed.

(** ** Reading the guards *)

Lemma triple_false {A} (c : M A) Q E : triple (λ _, False) c Q E.
Proof. by intros s H. Qed.

Lemma triple_exit {A} P (c : M A) Q (E E' : state → Prop) :
  triple P c Q E → (∀ s, E s → E' s) → triple P c Q E'.
Proof.
  intros Hc HE s HP. specialize (Hc s HP).
  destruct (c s); [done|by apply HE].
Qed.

Lemma missing_third info :
  (Length info <? 3)%nat = true → IsBuffer (arg info 2) = false.
Proof.
  intros H. apply Nat.ltb_lt in H. unfold arg, Length in *.
  by rewrite lookup_ge_None_2 by lia.
Qed.

Section Guards.

Variable enctypex_wrapper : bytes → bytes → bytes → Z → engine_out.
Variable react : misuse → reaction.
Variable host : platform.

(** A guard that holds leaves the state alone. *)
Lemma guard_passes s0 msg E :
  triple (eq s0) (when false (error react msg)) (λ _, eq s0) E.
Proof. by intros s <-. Qed.

(** The first guard that fails raises its message. *)
Lemma guard_fails m msg :
  triple (eq (enter m)) (when true (error react msg)) (λ _, raised msg)
    (raised msg).
Proof. intros s <-. split; [done|]. by exists []. Qed.

(** The steps of [Decryptx], one after the other, under an invariant of the
    framework. *)
Ltac onward Hlog Hmem Hraise :=
  repeat (eapply triple_bind;
          [first [ apply stable_when | apply stable_Utf8Value
                 | apply stable_As_Buffer | apply stable_alloca
                 | apply stable_Buffer_Length | apply stable_Buffer_Data
                 | apply stable_memcpy
                 | apply stable_call_enctypex_wrapper ];
           first [exact Hlog | exact Hmem | exact Hraise]
          |intros ?]);
  match goal with
  | |- triple _ (if ?b then _ else _) _ _ =>
      destruct b;
      [apply stable_ret
      |apply stable_Buffer_Copy;
       first [exact Hlog | exact Hmem | exact Hraise]]
  end.

Lemma Decryptx_raises m info msg :
  reported info = Some msg →
  triple (eq (enter m)) (Decryptx enctypex_wrapper react host info)
    (λ _, raised msg) (raised msg).
Proof.
  unfold reported, Decryptx.
  destruct (Length info <? 3)%nat.
  { intros [= <-].
    eapply triple_bind; [apply guard_fails|intros ?].
    onward (raised_log "Expected 3 arguments")
           (raised_mem "Expected 3 arguments")
           (raised_raise "Expected 3 arguments"). }
  destruct (negb (IsString (arg info 0))).
  { intros [= <-].
    eapply triple_bind; [apply guard_passes|intros ?].
    eapply triple_bind; [apply guard_fails|intros ?].
    onward (raised_log "Expected key to be a string")
           (raised_mem "Expected key to be a string")
           (raised_raise "Expected key to be a string"). }
  destruct (negb (IsString (arg info 1))).
  { intros [= <-].
    do 2 (eapply triple_bind; [apply guard_passes|intros ?]).
    eapply triple_bind; [apply guard_fails|intros ?].
    onward (raised_log "Expected validate to be a string")
           (raised_mem "Expected validate to be a string")
           (raised_raise "Expected validate to be a string"). }
  destruct (negb (IsBuffer (arg info 2))); [|done].
  intros [= <-].
  do 3 (eapply triple_bind; [apply guard_passes|intros ?]).
  eapply triple_bind; [apply guard_fails|intros ?].
  onward (raised_log "Expected data to be a Buffer")
         (raised_mem "Expected data to be a Buffer")
         (raised_raise "Expected data to be a Buffer").
Qed.

End Guards.

(** ** Ill-formed calls *)

(** X2: whatever the build, a call that fails a guard raises, before
    anything else is logged, the message of the first guard it fails (count,
    then key, then validate, then data), and JavaScript never gets a value
    from it: the call throws that message, or the process ends. *)
Theorem decryptx_reports_first engine react host (m : memory) info msg :
  reported info = Some msg →
  let res := decryptx engine react host m info in
  (∃ rest, log res = Thrown msg :: rest) ∧
  (outcome res = Throws msg ∨ outcome res = Dies).
Proof.
  intros Hmsg res.
  pose proof (Decryptx_raises engine react host m info msg Hmsg (enter m)
                eq_refl) as H.
  pose proof (bounded_Decryptx engine react host info (enter m)) as Hb.
  unfold res, decryptx.
  destruct (Decryptx engine react host info (enter m)) as [v s|e s];
    destruct H as [Hp Ht].
  - simpl. rewrite Hp. split; [done|by left].
  - destruct e; simpl; rewrite ?Hp;
      [split; [done|]; first [by left|by right]..|].
    specialize (Hb s eq_refl). congruence.
Qed.

Lemma decryptx_reports_first_witness :
  reported [JsString [0x6B%N]; JsNumber 7] = Some "Expected 3 arguments"%string
  ∧ ∃ rest,
      log (decryptx unwrapping throwing usual caller_memory
             [JsString [0x6B%N]; JsNumber 7])
        = Thrown "Expected 3 arguments" :: rest.
Proof.
  split; [reflexivity|].
  apply (decryptx_reports_first unwrapping throwing usual caller_memory
           [JsString [0x6B%N]; JsNumber 7] "Expected 3 arguments" eq_refl).
Defined.

Section Strict.

Variable enctypex_wrapper : bytes → bytes → bytes → Z → engine_out.
Variable react : misuse → reaction.
Variable host : platform.
Hypothesis strict : ∀ k, react k ≠ Proceed.

(** With an exception pending, a second [error] ends the call where it is. *)
Lemma error_ends msg' (s1 : state) Q :
  pending s1 ≠ None → triple (eq s1) (error react msg') Q (eq s1).
Proof.
  intros Hp s <-. unfold error, ThrowAsJavaScriptException, failed.
  destruct (pending s1); [|done].
  pose proof (strict ThrowWhilePending). by destruct (react ThrowWhilePending).
Qed.

Lemma guard_ends msg' (s1 : state) Q :
  pending s1 ≠ None → triple (eq s1) (when true (error react msg')) Q (eq s1).
Proof. apply error_ends. Qed.

Lemma Utf8Value_ends v (s1 : state) :
  pending s1 ≠ None →
  triple (eq s1) (Utf8Value react v)
    (λ _ s, if IsString v then s1 = s else False) (eq s1).
Proof.
  intros Hp s <-. destruct v; try done; simpl;
    unfold mbind, M_bind, failed; (destruct (pending s1); [|done]);
    pose proof (strict NotAString); by destruct (react NotAString).
Qed.

Lemma As_Buffer_ends v (s1 : state) :
  pending s1 ≠ None →
  triple (eq s1) (As_Buffer react v)
    (λ _ s, if IsBuffer v then s1 = s else False) (eq s1).
Proof.
  intros Hp s <-. destruct v; try done; simpl;
    unfold mbind, M_bind, failed; (destruct (pending s1); [|done]);
    pose proof (strict NotABuffer); by destruct (react NotABuffer).
Qed.

(** In a strict build an ill-formed call never gets past the conversions
    of lines 39 to 41. *)
Lemma Decryptx_ends m info msg :
  reported info = Some msg →
  triple (eq (enter m)) (Decryptx enctypex_wrapper react host info)
    (λ _ _, False) (eq (State m [] (Some msg) [Thrown msg])).
Proof.
  unfold reported, Decryptx.
  set (s1 := λ msg, State m [] (Some msg) [Thrown msg]).
  assert (Hs1 : ∀ g, pending (s1 g) ≠ None) by done.
  assert (Hfirst : ∀ g,
    triple (eq (enter m)) (when true (error react g)) (λ _, eq (s1 g))
      (eq (s1 g))) by (by intros g s <-).
  destruct (Length info <? 3)%nat eqn:E3.
  { intros [= <-]. rewrite (missing_third info E3). simpl negb.
    eapply triple_bind; [apply Hfirst|intros ?].
    destruct (negb (IsString (arg info 0)));
      (eapply triple_bind; [first [by apply guard_ends|apply guard_passes]
                           |intros ?]); [apply triple_false|].
    destruct (negb (IsString (arg info 1)));
      (eapply triple_bind; [first [by apply guard_ends|apply guard_passes]
                           |intros ?]); [apply triple_false|].
    eapply triple_bind; [by apply guard_ends|intros ?]. apply triple_false. }
  destruct (IsString (arg info 0)) eqn:E0; simpl negb.
  2:{ intros [= <-].
      eapply triple_bind; [apply guard_passes|intros ?].
      eapply triple_bind; [apply Hfirst|intros ?].
      destruct (negb (IsString (arg info 1)));
        (eapply triple_bind; [first [by apply guard_ends|apply guard_passes]
                             |intros ?]); [apply triple_false|].
      destruct (negb (IsBuffer (arg info 2)));
        (eapply triple_bind; [first [by apply guard_ends|apply guard_passes]
                             |intros ?]); [apply triple_false|].
      eapply triple_bind; [by apply Utf8Value_ends|intros ?].
      rewrite E0. apply triple_false. }
  destruct (IsString (arg info 1)) eqn:E1; simpl negb.
  2:{ intros [= <-].
      do 2 (eapply triple_bind; [apply guard_passes|intros ?]).
      eapply triple_bind; [apply Hfirst|intros ?].
      destruct (negb (IsBuffer (arg info 2)));
        (eapply triple_bind; [first [by apply guard_ends|apply guard_passes]
                             |intros ?]); [apply triple_false|].
      eapply triple_bind; [by apply Utf8Value_ends|intros ?]. rewrite E0.
      eapply triple_bind; [by apply Utf8Value_ends|intros ?]. rewrite E1.
      apply triple_false. }
  destruct (IsBuffer (arg info 2)) eqn:E2; simpl negb; [done|].
  intros [= <-].
  do 3 (eapply triple_bind; [apply guard_passes|intros ?]).
  eapply triple_bind; [apply Hfirst|intros ?].
  eapply triple_bind; [by apply Utf8Value_ends|intros ?]. rewrite E0.
  eapply triple_bind; [by apply Utf8Value_ends|intros ?]. rewrite E1.
  eapply triple_bind; [by apply As_Buffer_ends|intros ?]. rewrite E2.
  apply triple_false.
Qed.

End Strict.

(** X3: in a build where no failed Node-API call returns to its caller
    (each throws a C++ exception or ends the process), a call that fails a
    guard does nothing but raise that guard's message: no array is
    declared, nothing is copied, the engine is not entered, memory is as it
    was, and the call throws the message or the process ends. *)
Theorem decryptx_strict_build_rejects engine react host (m : memory)
    info msg :
  (∀ k, react k ≠ Proceed) →
  reported info = Some msg →
  let res := decryptx engine react host m info in
  log res = [Thrown msg] ∧ heap res = m ∧
  (outcome res = Throws msg ∨ outcome res = Dies).
Proof.
  intros Hs Hmsg res.
  pose proof (Decryptx_ends engine react host Hs m info msg Hmsg (enter m)
                eq_refl) as H.
  pose proof (bounded_Decryptx engine react host info (enter m)) as Hb.
  unfold res, decryptx.
  destruct (Decryptx engine react host info (enter m)) as [v s|e s]; [done|].
  subst s. destruct e; simpl;
    [split_and!; try done; first [by left|by right]..|].
  by specialize (Hb _ eq_refl).
Qed.

Lemma decryptx_strict_build_rejects_witness :
  (∀ k, throwing k ≠ Proceed) ∧
  reported [JsNumber 42; JsString [0xE9%N]; JsBuffer 7]
    = Some "Expected key to be a string"%string ∧
  log (decryptx unwrapping throwing usual caller_memory
         [JsNumber 42; JsString [0xE9%N]; JsBuffer 7])
    = [Thrown "Expected key to be a string"] ∧
  heap (decryptx unwrapping throwing usual caller_memory
          [JsNumber 42; JsString [0xE9%N]; JsBuffer 7]) = caller_memory.
Proof.
  assert (Hs : ∀ k, throwing k ≠ Proceed) by (intros k; discriminate).
  split_and!; [exact Hs|reflexivity|..];
    apply (decryptx_strict_build_rejects unwrapping throwing usual
             caller_memory [JsNumber 42; JsString [0xE9%N]; JsBuffer 7]
             "Expected key to be a string" Hs eq_refl).
Defined.

(** X4: no [return] follows [error], so a call that fails two of the four
    guards, as every call with fewer than three arguments does, calls
    [error] a second time while the first exception is pending.  In a build
    where that does not return (it ends the process when C++ exceptions are
    disabled, and throws a C++ exception otherwise) the call ends there:
    only the first message has been raised, nothing has been declared or
    copied, memory is as it was, and JavaScript sees the process die, or
    the first message thrown. *)
Theorem decryptx_second_failure_ends engine react host (m : memory)
    info msg :
  react ThrowWhilePending ≠ Proceed →
  reported info = Some msg →
  (2 ≤ failures info)%nat →
  let res := decryptx engine react host m info in
  log res = [Thrown msg] ∧ heap res = m ∧
  outcome res = match react ThrowWhilePending with
                | Terminate => Dies
                | _ => Throws msg
                end.
Proof.
  intros Hr Hmsg Hn res. unfold res, decryptx, Decryptx, enter.
  unfold reported in Hmsg. unfold failures in Hn.
  destruct (Length info <? 3)%nat, (negb (IsString (arg info 0))),
    (negb (IsString (arg info 1))), (negb (IsBuffer (arg info 2)));
    simpl in Hn; try lia; injection Hmsg as <-; unfold when;
    repeat first
      [ erewrite run_bind by apply run_error; cbv beta
      | erewrite run_bind_halt by (by apply run_error_halt)
      | erewrite run_bind by reflexivity; cbv beta ];
    by destruct (react ThrowWhilePending).
Qed.

Lemma decryptx_second_failure_ends_witness :
  plain ThrowWhilePending ≠ Proceed ∧
  reported no_arguments = Some "Expected 3 arguments"%string ∧
  (2 ≤ failures no_arguments)%nat ∧
  log (decryptx unwrapping plain usual caller_memory no_arguments)
    = [Thrown "Expected 3 arguments"] ∧
  outcome (decryptx unwrapping plain usual caller_memory no_arguments)
    = Dies.
Proof.
  assert (Hr : plain ThrowWhilePending ≠ Proceed) by discriminate.
  assert (Hn : (2 ≤ failures no_arguments)%nat) by (vm_compute; lia).
  split_and!; [exact Hr|reflexivity|exact Hn|..];
    apply (decryptx_second_failure_ends unwrapping plain usual caller_memory
             no_arguments "Expected 3 arguments" Hr eq_refl Hn).
Defined.

(** ** Arguments past the third *)

Lemma Decryptx_three engine react host v0 v1 v2 more :
  Decryptx engine react host (v0 :: v1 :: v2 :: more) =
  Decryptx engine react host [v0; v1; v2].
Proof. reflexivity. Qed.

(** X1: the count guard is [info.Length() < 3]: arguments past the third
    are never looked at, and a call with more than three behaves in every
    respect as the call with its first three. *)
Theorem decryptx_ignores_further_arguments engine react host (m : memory)
    v0 v1 v2 more :
  decryptx engine react host m (v0 :: v1 :: v2 :: more) =
  decryptx engine react host m [v0; v1; v2].
Proof. unfold decryptx. by rewrite Decryptx_three. Qed.

(** X5: a call whose first three arguments are a string, a string and a
    live Buffer passes the four guards, whatever follows the third
    argument; when the stack has room for its arrays and the engine keeps
    its contract, no exception is raised during the call and JavaScript
    gets [null] or a Buffer. *)
Theorem decryptx_wellformed_never_throws engine react host (m : memory)
    key validate a d more :
  m !! a = Some d →
  fits host (utf8 key) (utf8 validate) d →
  within_contract
    (ret (engine (utf8 key) (utf8 validate) d (to_int (Z.of_nat (length d)))))
    (to_int (Z.of_nat (length d))) →
  let res := decryptx engine react host m
               (JsString key :: JsString validate :: JsBuffer a :: more) in
  reported (JsString key :: JsString validate :: JsBuffer a :: more) = None ∧
  (∀ msg, Thrown msg ∉ log res) ∧
  (outcome res = Returns JsNull ∨ ∃ a', outcome res = Returns (JsBuffer a')).
Proof.
  intros Hd Hfit Hc res. unfold res. split; [done|].
  assert (E0 : decryptx engine react host m
                 (JsString key :: JsString validate :: JsBuffer a :: more) =
               decryptx engine react host m
                 [JsString key; JsString validate; JsBuffer a])
    by (unfold decryptx; by rewrite Decryptx_three).
  rewrite E0. clear E0.
  destruct (decryptx_wellformed engine react host m key validate a d Hd Hfit)
    as (a1 & a2 & a3 & a4 & _ & _ & _ & _ & _ & E).
  cbv zeta in E. rewrite E. clear E.
  pose proof (to_int_le (Z.of_nat (length d)) ltac:(lia)) as Hle.
  pose proof (to_int_bounds (Z.of_nat (length d))) as Hb. unfold INT_MAX in Hb.
  destruct Hc as [->|Hc].
  { change (-1 =? -1) with true. simpl. split; [|by left].
    intros msg H. by no_such_event H. }
  destruct (ret _ =? -1) eqn:E1; [lia|].
  rewrite to_size_t_id by lia.
  destruct (_ <=? Z.of_nat (length d)) eqn:E2; [|lia]. simpl.
  split; [|right; by exists a4].
  intros msg H. by no_such_event H.
Qed.

Lemma decryptx_wellformed_never_throws_witness :
  caller_memory !! 7%positive = Some [x6b; x02; x03] ∧
  fits usual (utf8 [0x6B%N]) (utf8 [0xE9%N]) [x6b; x02; x03] ∧
  within_contract
    (ret (unwrapping (utf8 [0x6B%N]) (utf8 [0xE9%N]) [x6b; x02; x03]
            (to_int (Z.of_nat (length [x6b; x02; x03])))))
    (to_int (Z.of_nat (length [x6b; x02; x03]))) ∧
  ∀ msg, Thrown msg ∉
    log (decryptx unwrapping plain usual caller_memory
           [JsString [0x6B%N]; JsString [0xE9%N]; JsBuffer 7; JsNumber 1]).
Proof.
  assert (R : fits usual (utf8 [0x6B%N]) (utf8 [0xE9%N]) [x6b; x02; x03])
    by (vm_compute; discriminate).
  assert (C : within_contract
                (ret (unwrapping (utf8 [0x6B%N]) (utf8 [0xE9%N])
                        [x6b; x02; x03]
                        (to_int (Z.of_nat (length [x6b; x02; x03])))))
                (to_int (Z.of_nat (length [x6b; x02; x03]))))
    by (right; vm_compute; split; discriminate).
  split_and!; [reflexivity|exact R|exact C|].
  apply (decryptx_wellformed_never_throws unwrapping plain usual
           caller_memory [0x6B%N] [0xE9%N] 7%positive [x6b; x02; x03]
           [JsNumber 1] eq_refl R C).
Defined.

(** X11: an answer of the engine below [-1] is not taken for a failure to
    decode.  Converted to [size_t] it is a length that no Buffer can have:
    [Buffer::Copy] is asked for it, refuses, and the call throws
    [ERR_BUFFER_TOO_LARGE] instead of returning [null]; memory is as it
    was. *)
Theorem decryptx_negative_answer_throws engine react host (m : memory)
    key validate a d r :
  m !! a = Some d →
  fits host (utf8 key) (utf8 validate) d →
  Z.of_nat (length d) ≤ kMaxLength host →
  kMaxLength host < 2 ^ 63 →
  ret (engine (utf8 key) (utf8 validate) d (to_int (Z.of_nat (length d))))
    = r →
  - 2 ^ 31 ≤ r < -1 →
  let res := decryptx engine react host m
               [JsString key; JsString validate; JsBuffer a] in
  outcome res = Throws "ERR_BUFFER_TOO_LARGE" ∧
  heap res = m ∧
  ∃ a3 before,
    Alloca a3 (length d) ∈ before ∧
    log res = before ++ [BufferCopy a3 (2 ^ 64 + r);
                         Thrown "ERR_BUFFER_TOO_LARGE"].
Proof.
  intros Hd Hfit Hmax Hk Hr Hneg res.
  destruct (decryptx_wellformed engine react host m key validate a d Hd Hfit)
    as (a1 & a2 & a3 & a4 & _ & _ & _ & _ & _ & E).
  cbv zeta in E. rewrite Hr in E. unfold res. rewrite E. clear E.
  assert (Hs : to_size_t r = 2 ^ 64 + r).
  { unfold to_size_t. symmetry. apply (Z.mod_unique _ _ (-1)); lia. }
  rewrite Hs.
  destruct (r =? -1) eqn:E1; [lia|].
  destruct (_ <=? Z.of_nat (length d)) eqn:E2; [lia|].
  destruct (kMaxLength host <? _) eqn:E3; [|lia].
  split_and!; try done.
  eexists a3, _. split; [|reflexivity].
  rewrite !elem_of_cons. repeat first [by left | right].
Qed.

Lemma decryptx_negative_answer_throws_witness :
  caller_memory !! 7%positive = Some [x6b; x02; x03] ∧
  fits usual (utf8 [0x6B%N]) (utf8 [0xE9%N]) [x6b; x02; x03] ∧
  Z.of_nat (length [x6b; x02; x03]) ≤ kMaxLength usual ∧
  kMaxLength usual < 2 ^ 63 ∧
  ret (answering (-2) (utf8 [0x6B%N]) (utf8 [0xE9%N]) [x6b; x02; x03]
         (to_int (Z.of_nat (length [x6b; x02; x03])))) = -2 ∧
  - 2 ^ 31 ≤ -2 < -1 ∧
  outcome (decryptx (answering (-2)) plain usual caller_memory sample_call)
    = Throws "ERR_BUFFER_TOO_LARGE".
Proof.
  assert (R : fits usual (utf8 [0x6B%N]) (utf8 [0xE9%N]) [x6b; x02; x03])
    by (vm_compute; discriminate).
  assert (L : Z.of_nat (length [x6b; x02; x03]) ≤ kMaxLength usual)
    by (vm_compute; discriminate).
  assert (K : kMaxLength usual < 2 ^ 63) by reflexivity.
  assert (N : - 2 ^ 31 ≤ -2 < -1) by lia.
  split_and!; [reflexivity|exact R|exact L|exact K|reflexivity
              |apply N|apply N|].
  apply (decryptx_negative_answer_throws (answering (-2)) plain usual
           caller_memory [0x6B%N] [0xE9%N] 7%positive [x6b; x02; x03] (-2)
           eq_refl R L K eq_refl N).
Defined.

(** ** What a call leaves in memory *)

Section Tidy.

Variable enctypex_wrapper : bytes → bytes → bytes → Z → engine_out.
Variable react : misuse → reaction.
Variable host : platform.
Variable m : memory.

(** A step that keeps [private] and whose end state is tidy keeps [snug]. *)
Lemma snug_step {A} (c : M A) ws ws' :
  triple (private m ws) c (λ _, private m ws') (private m []) →
  (∀ s, snug m ws s →
     match c s with Next _ s' | Halt _ s' => tidy m s' end) →
  triple (snug m ws) c (λ _, snug m ws') (snug m []).
Proof.
  intros Hp Ht s Hs. specialize (Hp s (proj1 Hs)). specialize (Ht s Hs).
  by destruct (c s).
Qed.

Lemma snug_step_new {A} (c : M A) ws (W : A → list addr) :
  triple (private m ws) c (λ a, private m (W a)) (private m []) →
  (∀ s, snug m ws s →
     match c s with Next _ s' | Halt _ s' => tidy m s' end) →
  triple (snug m ws) c (λ a, snug m (W a)) (snug m []).
Proof.
  intros Hp Ht s Hs. specialize (Hp s (proj1 Hs)). specialize (Ht s Hs).
  by destruct (c s).
Qed.

Lemma snug_failed k g ws :
  triple (snug m ws) (failed react k g) (λ _, snug m ws) (snug m []).
Proof.
  apply snug_step; [apply triple_failed|].
  intros s [_ H]. unfold failed. destruct (pending s), (react k); exact H.
Qed.

Lemma snug_refused k g ws :
  triple (snug m ws) (refused react k g) (λ _, snug m ws) (snug m []).
Proof.
  apply snug_step; [apply triple_refused|].
  intros s [_ H]. unfold refused. destruct (pending s), (react k); exact H.
Qed.

Lemma snug_error msg ws :
  triple (snug m ws) (error react msg) (λ _, snug m ws) (snug m []).
Proof.
  apply snug_step; [apply triple_error|].
  intros s [_ H]. unfold error, ThrowAsJavaScriptException, failed.
  destruct (pending s); [|exact H]. destruct (react _); exact H.
Qed.

Lemma snug_when b msg ws :
  triple (snug m ws) (when b (error react msg)) (λ _, snug m ws) (snug m []).
Proof.
  destruct b; [apply snug_error|]. intros s H. exact H.
Qed.

Lemma snug_failed_then {A} k g (a : A) ws :
  triple (snug m ws) (failed react k g;; mret a) (λ _, snug m ws)
    (snug m []).
Proof.
  eapply triple_bind; [apply snug_failed|]. intros [] s H. exact H.
Qed.

Lemma snug_Utf8Value v ws :
  triple (snug m ws) (Utf8Value react v) (λ _, snug m ws) (snug m []).
Proof. destruct v; try apply snug_failed_then. by intros s H. Qed.

Lemma snug_As_Buffer v ws :
  triple (snug m ws) (As_Buffer react v) (λ _, snug m ws) (snug m []).
Proof. destruct v; try apply snug_failed_then. by intros s H. Qed.

Lemma snug_Buffer_Length v ws :
  triple (snug m ws) (Buffer_Length react v) (λ _, snug m ws) (snug m []).
Proof. destruct v; try apply snug_failed_then. by intros s H. Qed.

Lemma snug_Buffer_Data v ws :
  triple (snug m ws) (Buffer_Data react v) (λ _, snug m ws) (snug m []).
Proof. destruct v; try apply snug_failed_then. by intros s H. Qed.

Lemma tidy_poke a b s :
  a ∈ frame s → tidy m s → tidy m (poke a b s).
Proof.
  intros Ha H x. simpl. destruct (decide (a = x)) as [<-|]; lookups.
  - by right.
  - apply H.
Qed.

Lemma snug_alloca n ws :
  triple (snug m ws) (alloca host n) (λ a, snug m (a :: ws)) (snug m []).
Proof.
  apply (snug_step_new _ ws (λ a, a :: ws)); [apply triple_alloca|].
  intros s [_ H]. unfold alloca. cbv zeta.
  destruct (_ <=? _); [|exact H]. intros x. simpl.
  destruct (decide (fresh (dom (mem s)) = x)) as [<-|]; lookups.
  - intros _. right. by left.
  - intros Hx. destruct (H x Hx); [by left|]. right. by right.
Qed.

Lemma snug_memcpy dst src n ws :
  dst ∈ ws →
  triple (snug m ws) (memcpy dst src n) (λ _, snug m ws) (snug m []).
Proof.
  intros Hd. apply snug_step; [by apply triple_memcpy|].
  intros s [Hp H]. unfold memcpy.
  apply (tidy_poke dst _ s); [|done]. by apply Hp.
Qed.

Lemma snug_call_enctypex_wrapper k v d size ws :
  k ∈ ws → v ∈ ws → d ∈ ws →
  triple (snug m ws) (call_enctypex_wrapper enctypex_wrapper k v d size)
    (λ _, snug m ws) (snug m []).
Proof.
  intros Hk Hv Hd. apply snug_step; [by apply triple_call_enctypex_wrapper|].
  intros s [Hp H]. unfold call_enctypex_wrapper. cbv zeta.
  assert (∀ a, a ∈ ws → a ∈ frame s) as Hf by apply Hp.
  repeat (apply tidy_poke; [by apply Hf|]). exact H.
Qed.

Lemma snug_Buffer_Copy src n ws :
  triple (snug m ws) (Buffer_Copy react host src n) (λ v, settled m v)
    (snug m []).
Proof.
  intros s [Hp Ht].
  pose proof (triple_Buffer_Copy react host m src n ws s Hp) as H.
  unfold Buffer_Copy in *. cbv zeta in *.
  destruct (pending s) eqn:Ep.
  - unfold mbind, M_bind, failed in *. simpl in *. rewrite Ep in *.
    destruct (react CreateWhilePending); simpl in *.
    + destruct H as [H _]. split; [by eapply private_nil|].
      left. split; [exact Ht|]. right. simpl. by rewrite Ep.
    + by split.
    + by split.
  - destruct (_ <=? _).
    + destruct H as [H U]. split; [by eapply private_nil|]. right.
      destruct (U _ eq_refl) as (U1 & U2 & U3).
      eexists. split_and!; try done.
      intros x. simpl. destruct (decide (fresh (dom (mem s)) = x)) as [<-|];
        lookups; [by right; right|].
      intros Hx. destruct (Ht x Hx); [by left|by right; left].
    + destruct (_ <? _); [|by split].
      unfold mbind, M_bind, refused in *. simpl in *. rewrite Ep in *.
      destruct (react TooLarge); simpl in *.
      * destruct H as [H _]. split; [by eapply private_nil|].
        left. split; [exact Ht|]. by right.
      * by split.
      * by split.
Qed.

Lemma snug_Decryptx info :
  triple (snug m []) (Decryptx enctypex_wrapper react host info)
    (λ v, settled m v) (snug m []).
Proof.
  unfold Decryptx.
  do 4 (eapply triple_bind; [apply snug_when|intros []]).
  eapply triple_bind; [apply snug_Utf8Value|intros key].
  eapply triple_bind; [apply snug_Utf8Value|intros validate].
  eapply triple_bind; [apply snug_As_Buffer|intros data].
  eapply triple_bind; [apply snug_alloca|intros a1].
  eapply triple_bind; [apply snug_alloca|intros a2].
  eapply triple_bind; [apply snug_Buffer_Length|intros len].
  eapply triple_bind; [apply snug_alloca|intros a3].
  assert (a1 ∈ [a3; a2; a1] ∧ a2 ∈ [a3; a2; a1] ∧ a3 ∈ [a3; a2; a1])
    as (I1 & I2 & I3) by (rewrite !elem_of_cons; tauto).
  eapply triple_bind; [by apply snug_memcpy|intros []].
  eapply triple_bind; [by apply snug_memcpy|intros []].
  eapply triple_bind; [apply snug_Buffer_Data|intros src].
  eapply triple_bind; [apply snug_Buffer_Length|intros len'].
  eapply triple_bind; [by apply snug_memcpy|intros []].
  eapply triple_bind; [apply snug_Buffer_Length|intros len''].
  eapply triple_bind; [by apply snug_call_enctypex_wrapper|intros r].
  destruct (r =? -1).
  - intros s [Hp Ht]. split; [by eapply private_nil|].
    left. split; [done|by left].
  - apply snug_Buffer_Copy.
Qed.

Lemma snug_enter : snug m [] (enter m).
Proof. split; [apply private_enter|]. intros a Ha. by left. Qed.

Lemma leave_lookup_in s a : a ∈ frame s → leave s !! a = None.
Proof.
  unfold leave. induction (frame s) as [|x f IH]; [by rewrite elem_of_nil|].
  rewrite elem_of_cons. intros Ha. simpl.
  destruct (decide (x = a)) as [->|]; lookups; [done|].
  apply IH. by destruct Ha.
Qed.

(** With the frame gone, a snug state is the caller's memory again. *)
Lemma leave_snug ws s : snug m ws s → leave s = m.
Proof.
  intros [Hp Ht]. apply map_eq. intros i.
  destruct (decide (i ∈ frame s)) as [Hi|Hi].
  - rewrite leave_lookup_in by done. symmetry. by apply Hp.
  - rewrite leave_lookup by done.
    destruct (m !! i) eqn:Em.
    + eapply lookup_weaken; [exact Em|apply Hp].
    + destruct (mem s !! i) eqn:Es; [|done].
      destruct (Ht i ltac:(by rewrite Es)) as [[? ?]|?]; [congruence|done].
Qed.

(** The ways a call can end, and memory in each. *)
Lemma decryptx_settles info :
  let res := decryptx enctypex_wrapper react host m info in
  (outcome res = Returns JsNull ∧ heap res = m) ∨
  (∃ a' b, outcome res = Returns (JsBuffer a') ∧ m !! a' = None ∧
           heap res = <[a' := b]> m) ∨
  ((∃ msg, outcome res = Throws msg) ∧ heap res = m) ∨
  ((outcome res = Dies ∨ outcome res = Undefined) ∧ heap res = m).
Proof.
  pose proof (snug_Decryptx info (enter m) snug_enter) as H.
  unfold decryptx.
  destruct (Decryptx enctypex_wrapper react host info (enter m))
    as [v s|e s].
  - destruct H as [Hp [[Ht Hv]|(a' & -> & Hn & Ha & Hf & [b Hb] & Hd)]];
      simpl.
    + pose proof (leave_snug [] s (conj Hp Ht)) as L.
      destruct (pending s) eqn:Ep.
      * right; right; left. split; [by eexists|done].
      * destruct Hv as [->|]; [by left|done].
    + rewrite Hn. right; left. exists a', b. split_and!; try done.
      apply map_eq. intros i.
      destruct (decide (a' = i)) as [<-|Hne]; lookups.
      { by rewrite leave_lookup. }
      destruct (decide (i ∈ frame s)) as [Hi|Hi].
      * rewrite leave_lookup_in by done. symmetry. by apply Hp.
      * rewrite leave_lookup by done.
        destruct (m !! i) eqn:Em.
        { eapply lookup_weaken; [exact Em|apply Hp]. }
        destruct (mem s !! i) eqn:Es; [|done].
        destruct (Hd i ltac:(by rewrite Es)) as [[? ?]|[?|?]];
          [congruence|done|congruence].
  - pose proof (leave_snug [] s H) as L.
    destruct e; simpl.
    + right; right; left. split; [by eexists|done].
    + right; right; right. split; [by left|done].
    + right; right; right. split; [by left|done].
    + right; right; right. split; [by right|done].
Qed.

End Tidy.

(** X6: however a call ends, well-formed or not and whatever the build,
    the working arrays are gone and memory is exactly what the caller had,
    except that a call returning a Buffer has added that one block. *)
Theorem decryptx_leaves_no_garbage engine react host (m : memory) info :
  let res := decryptx engine react host m info in
  (∀ a', outcome res ≠ Returns (JsBuffer a')) ∧ heap res = m ∨
  ∃ a' b, outcome res = Returns (JsBuffer a') ∧ m !! a' = None ∧
          heap res = <[a' := b]> m.
Proof.
  intros res.
  destruct (decryptx_settles engine react host m info)
    as [[Ho L]|[(a' & b & Ho & Hn & L)|[[[msg Ho] L]|[[Ho|Ho] L]]]];
    fold res in Ho, L.
  - left. split; [|done]. intros a'. by rewrite Ho.
  - right. by exists a', b.
  - left. split; [|done]. intros a'. by rewrite Ho.
  - left. split; [|done]. intros a'. by rewrite Ho.
  - left. split; [|done]. intros a'. by rewrite Ho.
Qed.

(** X7: a call that returns a value to JavaScript returns [null] or a
    Buffer, never [undefined] or anything else, whatever its arguments and
    whatever the build. *)
Theorem decryptx_returns_null_or_buffer engine react host (m : memory)
    info v :
  outcome (decryptx engine react host m info) = Returns v →
  v = JsNull ∨ ∃ a', v = JsBuffer a'.
Proof.
  intros Hv.
  destruct (decryptx_settles engine react host m info)
    as [[Ho _]|[(a' & b & Ho & _)|[[[msg Ho] _]|[[Ho|Ho] _]]]];
    rewrite Ho in Hv; try discriminate Hv; injection Hv as <-.
  - by left.
  - right. by exists a'.
Qed.

Lemma decryptx_returns_null_or_buffer_witness :
  outcome (decryptx (answering (-1)) plain usual caller_memory sample_call)
    = Returns JsNull ∧
  (JsNull = JsNull ∨ ∃ a', JsNull = JsBuffer a').
Proof.
  split; [reflexivity|].
  apply (decryptx_returns_null_or_buffer (answering (-1)) plain usual
           caller_memory sample_call JsNull eq_refl).
Defined.

(** ** What of the engine reaches the caller *)

(** X8: only the engine's return value and what it leaves in the data
    array reach the caller: two engines that agree on those at a
    well-formed call give the same result, whatever either writes into the
    key and validate arrays. *)
Theorem decryptx_discards_key_writes engine1 engine2 react host
    (m : memory) key validate a d :
  m !! a = Some d →
  ret (engine1 (utf8 key) (utf8 validate) d (to_int (Z.of_nat (length d)))) =
  ret (engine2 (utf8 key) (utf8 validate) d (to_int (Z.of_nat (length d)))) →
  out_data
    (engine1 (utf8 key) (utf8 validate) d (to_int (Z.of_nat (length d)))) =
  out_data
    (engine2 (utf8 key) (utf8 validate) d (to_int (Z.of_nat (length d)))) →
  observe (decryptx engine1 react host m
             [JsString key; JsString validate; JsBuffer a]) =
  observe (decryptx engine2 react host m
             [JsString key; JsString validate; JsBuffer a]).
Proof.
  intros Hd Hr Ho.
  destruct (Z.le_gt_cases
              (Z.of_nat (length (utf8 key) + length (utf8 validate)
                         + length d)) (stack_room host)) as [Hfit|Hfit].
  2: { assert (Hno : ¬ fits host (utf8 key) (utf8 validate) d)
         by (unfold fits; lia).
       destruct (decryptx_stack_overflow engine1 react host m key validate
                   a d Hd Hno) as (O1 & _).
       destruct (decryptx_stack_overflow engine2 react host m key validate
                   a d Hd Hno) as (O2 & _).
       unfold observe. by rewrite O1, O2. }
  destruct (decryptx_wellformed engine1 react host m key validate a d
              Hd Hfit)
    as (? & ? & ? & b1 & _ & _ & _ & _ & _ & E1).
  destruct (decryptx_wellformed engine2 react host m key validate a d
              Hd Hfit)
    as (? & ? & ? & b2 & _ & _ & _ & _ & _ & E2).
  cbv zeta in E1, E2. rewrite E1, E2, Hr, Ho. clear E1 E2.
  destruct (ret _ =? -1); [done|].
  destruct (_ <=? _); [|by destruct (_ <? _)].
  unfold observe. simpl. by lookups.
Qed.

Lemma decryptx_discards_key_writes_witness :
  caller_memory !! 7%positive = Some [x6b; x02; x03] ∧
  out_key (scribbling (utf8 [0x6B%N]) (utf8 [0xE9%N]) [x6b; x02; x03] 3)
    ≠ out_key (unwrapping (utf8 [0x6B%N]) (utf8 [0xE9%N]) [x6b; x02; x03] 3)
  ∧ observe (decryptx unwrapping plain usual caller_memory sample_call) =
    observe (decryptx scribbling plain usual caller_memory sample_call).
Proof.
  split_and!; [reflexivity|discriminate|].
  apply (decryptx_discards_key_writes unwrapping scribbling plain usual
           caller_memory [0x6B%N] [0xE9%N] 7%positive [x6b; x02; x03]
           eq_refl eq_refl eq_refl).
Defined.

(** ** ASCII strings *)

Lemma utf8_ascii units :
  Forall (λ u, (u < 0x80)%N) units → utf8 units = octet <$> units.
Proof.
  induction 1 as [|u rest Hu _ IH]; [done|]. simpl utf8.
  assert (is_lead u = false) as ->.
  { unfold is_lead. apply andb_false_intro1, N.leb_gt. lia. }
  assert (is_trail u = false) as ->.
  { unfold is_trail. apply andb_false_intro1, N.leb_gt. lia. }
  unfold utf8_scalar. apply N.ltb_lt in Hu. rewrite Hu, IH. done.
Qed.

(** X9: for a key and a validate string of ASCII characters only, on a call
    that the stack has room for, the engine is entered with one byte per
    character, the character's code, and the two working arrays have the
    strings' lengths. *)
Theorem decryptx_passes_ascii engine react host (m : memory)
    key validate a d :
  Forall (λ u, (u < 0x80)%N) key →
  Forall (λ u, (u < 0x80)%N) validate →
  m !! a = Some d →
  Z.of_nat (length key + length validate + length d) ≤ stack_room host →
  let res := decryptx engine react host m
               [JsString key; JsString validate; JsBuffer a] in
  ∃ a1 a2 rest,
    log res = Alloca a1 (length key) :: Alloca a2 (length validate) :: rest ∧
    ∃ size, Engine (octet <$> key) (octet <$> validate) d size ∈ rest.
Proof.
  intros Hk Hv Hd Hroom res.
  assert (Hfit : fits host (utf8 key) (utf8 validate) d).
  { unfold fits.
    by rewrite (utf8_ascii key Hk), (utf8_ascii validate Hv), !length_fmap. }
  destruct (decryptx_wellformed engine react host m key validate a d Hd Hfit)
    as (a1 & a2 & a3 & a4 & _ & _ & _ & _ & _ & E).
  cbv zeta in E. rewrite !(utf8_ascii key Hk), !(utf8_ascii validate Hv) in E.
  rewrite !length_fmap in E. unfold res. rewrite E. clear E.
  exists a1, a2.
  destruct (ret _ =? -1); [|destruct (_ <=? _); [|destruct (_ <? _)]];
    simpl log;
    (eexists; split; [reflexivity|eexists];
     rewrite !elem_of_cons; repeat first [by left | right]).
Qed.

Lemma decryptx_passes_ascii_witness :
  Forall (λ u, (u < 0x80)%N) [0x6B%N; 0x65%N; 0x79%N] ∧
  Forall (λ u, (u < 0x80)%N) [0x76%N] ∧
  caller_memory !! 7%positive = Some [x6b; x02; x03] ∧
  Z.of_nat (length [0x6B%N; 0x65%N; 0x79%N] + length [0x76%N]
            + length [x6b; x02; x03]) ≤ stack_room usual ∧
  ∃ a1 a2 rest,
    log (decryptx unwrapping plain usual caller_memory
           [JsString [0x6B%N; 0x65%N; 0x79%N]; JsString [0x76%N];
            JsBuffer 7]) =
      Alloca a1 3 :: Alloca a2 1 :: rest ∧
    ∃ size, Engine [x6b; x65; x79] [x76] [x6b; x02; x03] size ∈ rest.
Proof.
  assert (Hk : Forall (λ u, (u < 0x80)%N) [0x6B%N; 0x65%N; 0x79%N])
    by (repeat constructor).
  assert (Hv : Forall (λ u, (u < 0x80)%N) [0x76%N]) by (repeat constructor).
  assert (R : Z.of_nat (length [0x6B%N; 0x65%N; 0x79%N] + length [0x76%N]
                        + length [x6b; x02; x03]) ≤ stack_room usual)
    by (vm_compute; discriminate).
  split_and!; [exact Hk|exact Hv|reflexivity|exact R|].
  apply (decryptx_passes_ascii unwrapping plain usual caller_memory
           [0x6B%N; 0x65%N; 0x79%N] [0x76%N] 7%positive [x6b; x02; x03]
           Hk Hv eq_refl R).
Defined.

(** ** Builds *)

(** X10: the build matters to ill-formed calls only: a well-formed call
    ends the same way, with the same bytes, whatever a failed Node-API call
    would have done. *)
Theorem decryptx_wellformed_in_any_build engine react1 react2 host
    (m : memory) key validate a d :
  m !! a = Some d →
  observe (decryptx engine react1 host m
             [JsString key; JsString validate; JsBuffer a]) =
  observe (decryptx engine react2 host m
             [JsString key; JsString validate; JsBuffer a]).
Proof.
  intros Hd.
  destruct (Z.le_gt_cases
              (Z.of_nat (length (utf8 key) + length (utf8 validate)
                         + length d)) (stack_room host)) as [Hfit|Hfit].
  2: { assert (Hno : ¬ fits host (utf8 key) (utf8 validate) d)
         by (unfold fits; lia).
       destruct (decryptx_stack_overflow engine react1 host m key validate
                   a d Hd Hno) as (O1 & _).
       destruct (decryptx_stack_overflow engine react2 host m key validate
                   a d Hd Hno) as (O2 & _).
       unfold observe. by rewrite O1, O2. }
  destruct (decryptx_wellformed engine react1 host m key validate a d
              Hd Hfit)
    as (? & ? & ? & b1 & _ & _ & _ & _ & _ & E1).
  destruct (decryptx_wellformed engine react2 host m key validate a d
              Hd Hfit)
    as (? & ? & ? & b2 & _ & _ & _ & _ & _ & E2).
  cbv zeta in E1, E2. rewrite E1, E2. clear E1 E2.
  destruct (ret _ =? -1); [done|].
  destruct (_ <=? _); [|by destruct (_ <? _)].
  unfold observe. simpl. by lookups.
Qed.

Lemma decryptx_wellformed_in_any_build_witness :
  caller_memory !! 7%positive = Some [x6b; x02; x03] ∧
  observe (decryptx unwrapping plain usual caller_memory sample_call) =
  observe (decryptx unwrapping throwing usual caller_memory sample_call).
Proof.
  split; [reflexivity|].
  apply (decryptx_wellformed_in_any_build unwrapping plain throwing usual
           caller_memory [0x6B%N] [0xE9%N] 7%positive [x6b; x02; x03]
           eq_refl).
Defined.
